(** * Shallow embedding of the signstream pose-classification core

    Numbers of the TypeScript source are modelled as real numbers for the
    geometric part (vectors, bases, scores) and as rationals for the
    temporal stabilizers, where counts and thresholds are compared. *)

From Stdlib Require Import Reals Lra Psatz List String Bool ZArith QArith Qround.
Import ListNotations.

Open Scope R_scope.

(** ** Vector math kernel ([VectorMath] in src/lib/VectorMath.ts, and the
    private helpers of both [VectorEngine] classes) *)

Record Point3D := mkPoint { x : R; y : R; z : R }.

Definition sub (a b : Point3D) : Point3D :=
  {| x := x a - x b; y := y a - y b; z := z a - z b |}.

Definition dot (a b : Point3D) : R := x a * x b + y a * y b + z a * z b.

Definition cross (a b : Point3D) : Point3D :=
  {| x := y a * z b - z a * y b;
     y := z a * x b - x a * z b;
     z := x a * y b - y a * x b |}.

Definition dist (a b : Point3D) : R :=
  sqrt ((x a - x b) * (x a - x b) + (y a - y b) * (y a - y b)
        + (z a - z b) * (z a - z b)).

(** [const mag = Math.hypot(v.x, v.y, v.z) || 1]: a zero magnitude is falsy
    and is replaced by 1 (the reals have no NaN). *)
Definition magnitude (v : Point3D) : R :=
  sqrt (x v * x v + y v * y v + z v * z v).

Definition normalize (v : Point3D) : Point3D :=
  let m := magnitude v in
  let mag := if Req_EM_T m 0 then 1 else m in
  {| x := x v / mag; y := y v / mag; z := z v / mag |}.

Definition zero3 : Point3D := {| x := 0; y := 0; z := 0 |}.

Definition nonzero (v : Point3D) : Prop := ~ (x v = 0 /\ y v = 0 /\ z v = 0).

Definition scale (k : R) (v : Point3D) : Point3D :=
  {| x := k * x v; y := k * y v; z := k * z v |}.

(** ** Hand basis of the hybrid [VectorEngine] (src/lib/RecognitionService.ts,
    [computeHandBasis], the "knuckle bar" variant) *)

Record Basis := mkBasis { bx : Point3D; by_ : Point3D; bz : Point3D }.

Definition lm (landmarks : list Point3D) (i : nat) : Point3D :=
  nth i landmarks zero3.

Definition computeHandBasis (landmarks : list Point3D) : Basis :=
  let wrist := lm landmarks 0 in
  let indexMcp := lm landmarks 5 in
  let pinkyMcp := lm landmarks 17 in
  let xAxis := normalize (sub pinkyMcp indexMcp) in
  let wristToIndex := sub indexMcp wrist in
  let zAxis := normalize (cross xAxis wristToIndex) in
  let yAxis := normalize (cross zAxis xAxis) in
  {| bx := xAxis; by_ := yAxis; bz := zAxis |}.

(** Decisions on reals, as the JavaScript comparisons [a > b] and [a < b]. *)
Definition gtb (a b : R) : bool := if Rlt_dec b a then true else false.
Definition ltb (a b : R) : bool := if Rlt_dec a b then true else false.

(** Result of a pose matcher: [{ letter: string | null; score: number }]. *)
Record MatchResult := mkMatch { letter : option string; score : R }.

(** The matching loop shared by both [VectorEngine.matchPose] variants:
    [bestScore] starts at -1, [bestMatch] at null, and an entry of
    [Object.entries(CANONICAL_POSES)] replaces the best one only when its
    score is strictly greater. *)
Fixpoint select_best {P : Type} (sim : P -> R) (entries : list (string * P))
    (bestMatch : option string) (bestScore : R) : MatchResult :=
  match entries with
  | [] => {| letter := bestMatch; score := bestScore |}
  | (l, pose) :: rest =>
      let s := sim pose in
      if Rlt_dec bestScore s then select_best sim rest (Some l) s
      else select_best sim rest bestMatch bestScore
  end.

(** Projection of the five finger vectors (MCP -> tip, normalized) into a
    local basis: [extractFeatures] of both engines. *)
Definition FINGER_VECTORS : list (nat * nat) :=
  [(2, 4); (5, 8); (9, 12); (13, 16); (17, 20)]%nat.

Definition project (b : Basis) (v : Point3D) : Point3D :=
  {| x := dot v (bx b); y := dot v (by_ b); z := dot v (bz b) |}.

Definition extractFeatures (landmarks : list Point3D) (b : Basis)
    : list Point3D :=
  map (fun '(startIdx, endIdx) =>
         project b (normalize (sub (lm landmarks endIdx) (lm landmarks startIdx))))
      FINGER_VECTORS.

Fixpoint sum_dots (current target : list Point3D) : R :=
  match current, target with
  | c :: cs, t :: ts => dot c t + sum_dots cs ts
  | _, _ => 0
  end.

Definition P (a b c : R) : Point3D := {| x := a; y := b; z := c |}.

(** [CANONICAL_POSES[key]] for a key that is an own property of the object
    literal: the first entry with that key (the keys are distinct). Names
    inherited from [Object.prototype] are not modelled. *)
Fixpoint lookup {A : Type} (key : string) (entries : list (string * A))
    : option A :=
  match entries with
  | [] => None
  | (k, v) :: rest => if String.eqb k key then Some v else lookup key rest
  end.

(** *** The hybrid engine (src/lib/RecognitionService.ts, [VectorEngine]) *)
Module Hybrid.

Record PoseDef := mkPose { vectors : list Point3D; curls : list bool }.

Definition CANONICAL_POSES : list (string * PoseDef) := [
  ("A"%string, {| curls := [true; false; false; false; false];
                  vectors := [P 0.5 0.5 0.5; P 0 (-0.5) 0.5; P 0 (-0.5) 0.5;
                              P 0 (-0.5) 0.5; P 0 (-0.5) 0.5] |});
  ("B"%string, {| curls := [false; true; true; true; true];
                  vectors := [P (-0.5) 0.3 0.5; P (-0.1) 0.9 0.2; P 0 0.95 0.2;
                              P 0.1 0.9 0.2; P 0.2 0.85 0.2] |});
  ("C"%string, {| curls := [true; true; true; true; true];
                  vectors := [P 0.5 0.3 0.7; P (-0.1) 0.4 0.8; P 0 0.4 0.8;
                              P 0.1 0.4 0.8; P 0.2 0.4 0.8] |});
  ("D"%string, {| curls := [true; true; false; false; false];
                  vectors := [P 0.3 0 0.9; P 0 0.95 0.2; P 0 0 0.9;
                              P 0.1 0 0.9; P 0.2 0 0.9] |});
  ("L"%string, {| curls := [true; true; false; false; false];
                  vectors := [P 0.9 0.3 0.2; P 0 0.95 0.2; P 0 (-0.3) 0.8;
                              P 0.1 (-0.3) 0.8; P 0.2 (-0.3) 0.8] |});
  ("O"%string, {| curls := [true; true; true; true; true];
                  vectors := [P 0.2 (-0.2) 0.9; P (-0.1) (-0.2) 0.9;
                              P 0 (-0.2) 0.9; P 0.1 (-0.2) 0.9;
                              P 0.2 (-0.2) 0.9] |});
  ("V"%string, {| curls := [false; true; true; false; false];
                  vectors := [P (-0.5) 0 0.7; P (-0.3) 0.85 0.2;
                              P 0.3 0.85 0.2; P 0.1 (-0.3) 0.9;
                              P 0.2 (-0.3) 0.9] |});
  ("W"%string, {| curls := [false; true; true; true; false];
                  vectors := [P (-0.5) 0 0.7; P (-0.4) 0.8 0.2; P 0 0.9 0.2;
                              P 0.4 0.8 0.2; P 0.3 (-0.2) 0.9] |});
  ("Y"%string, {| curls := [true; false; false; false; true];
                  vectors := [P 0.9 0.3 0.2; P 0 (-0.3) 0.9; P 0.1 (-0.3) 0.9;
                              P 0.2 (-0.3) 0.9; P 0.5 0.7 0.3] |})
].

Definition FINGER_CURL_INDICES : list (nat * nat) :=
  [(2, 4); (5, 8); (9, 12); (13, 16); (17, 20)]%nat.

(** [calculateCurls]: a finger is extended when its tip is more than 1.1
    times as far from the wrist as its MCP (thumb and fingers alike). *)
Definition calculateCurls (landmarks : list Point3D) : list bool :=
  let wrist := lm landmarks 0 in
  map (fun '(mcp, tip) =>
         gtb (dist (lm landmarks tip) wrist) (dist (lm landmarks mcp) wrist * 1.1))
      FINGER_CURL_INDICES.

(** [calculateCurlMatch]: number of the 5 fingers whose states agree, over 5. *)
Definition calculateCurlMatch (current target : list bool) : R :=
  let agree i := match nth_error current i, nth_error target i with
                 | Some a, Some b => Bool.eqb a b
                 | None, None => true
                 | _, _ => false
                 end in
  INR (List.length (filter agree [0; 1; 2; 3; 4]%nat)) / 5.

(** [calculateSimilarity]: mean dot product remapped from [-1,1] to [0,1]. *)
Definition calculateSimilarity (current target : list Point3D) : R :=
  if Nat.eqb (List.length current) (List.length target) then
    let avg := sum_dots current target / INR (List.length current) in
    (avg + 1) / 2
  else 0.

Definition hybridScore (features : list Point3D) (currentCurls : list bool)
    (pose : PoseDef) : R :=
  calculateCurlMatch currentCurls (curls pose) * 0.4
  + calculateSimilarity features (vectors pose) * 0.6.

Definition matchPose (landmarks : list Point3D) : MatchResult :=
  if Nat.ltb (List.length landmarks) 21 then {| letter := None; score := 0 |}
  else
    let basis := computeHandBasis landmarks in
    let features := extractFeatures landmarks basis in
    let currentCurls := calculateCurls landmarks in
    select_best (hybridScore features currentCurls) CANONICAL_POSES None (-1).

(** The score [matchPose] gives a pose, for given landmarks. *)
Definition poseScore (landmarks : list Point3D) : PoseDef -> R :=
  hybridScore (extractFeatures landmarks (computeHandBasis landmarks))
              (calculateCurls landmarks).

Definition calculateTargetSimilarity (landmarks : list Point3D)
    (targetLetter : string) : R :=
  if Nat.ltb (List.length landmarks) 21 then 0 else
  match lookup targetLetter CANONICAL_POSES with
  | None => 0
  | Some targetPose =>
      let basis := computeHandBasis landmarks in
      let features := extractFeatures landmarks basis in
      let currentCurls := calculateCurls landmarks in
      let curlScore := calculateCurlMatch currentCurls (curls targetPose) in
      let vectorScore := calculateSimilarity features (vectors targetPose) in
      Rmax 0 (curlScore * 0.4 + vectorScore * 0.6)
  end.

End Hybrid.

(** *** The cosine-only engine (unnamed/part_004, [VectorEngine]) *)
Module Cosine.

Definition computeHandBasis (landmarks : list Point3D) : Basis :=
  let wrist := lm landmarks 0 in
  let indexMcp := lm landmarks 5 in
  let middleMcp := lm landmarks 9 in
  let pinkyMcp := lm landmarks 17 in
  let yAxis0 := normalize (sub middleMcp wrist) in
  let p1 := sub indexMcp wrist in
  let p2 := sub pinkyMcp wrist in
  let zAxis := normalize (cross p1 p2) in
  let xAxis := normalize (cross yAxis0 zAxis) in
  let yAxis := cross zAxis xAxis in
  {| bx := xAxis; by_ := yAxis; bz := zAxis |}.

Definition CANONICAL_POSES : list (string * list Point3D) := [
  ("A"%string, [P 0.1 0.9 0; P 0 (-1) 0; P 0 (-1) 0; P 0 (-1) 0; P 0 (-1) 0]);
  ("B"%string, [P (-0.8) 0.2 0; P 0 1 0; P 0 1 0; P 0 1 0; P 0 1 0]);
  ("C"%string, [P 0.5 0.5 0.7; P 0 0.5 0.8; P 0 0.5 0.8; P 0 0.5 0.8;
                P 0 0.5 0.8]);
  ("D"%string, [P 0.5 (-0.2) 0.8; P 0 1 0; P 0 0.2 0.9; P 0 0.2 0.9;
                P 0 0.2 0.9]);
  ("L"%string, [P 0.9 0.4 0; P 0.1 0.9 0; P 0 (-1) 0; P 0 (-1) 0; P 0 (-1) 0]);
  ("O"%string, [P 0 (-0.1) 0.9; P 0 (-0.1) 0.9; P 0 (-0.1) 0.9;
                P 0 (-0.1) 0.9; P 0 (-0.1) 0.9]);
  ("V"%string, [P (-0.8) 0 0; P (-0.2) 0.9 0; P 0.2 0.9 0; P 0 (-1) 0;
                P 0 (-1) 0]);
  ("W"%string, [P (-0.8) 0 0; P (-0.3) 0.9 0; P 0 1 0; P 0.3 0.9 0;
                P 0 (-1) 0]);
  ("Y"%string, [P 0.9 0.2 0; P 0 (-1) 0; P 0 (-1) 0; P 0 (-1) 0;
                P 0.8 0.5 0])
].

(** [calculateSimilarity]: mean dot product, left in [-1,1]. *)
Definition calculateSimilarity (current target : list Point3D) : R :=
  if Nat.eqb (List.length current) (List.length target) then
    sum_dots current target / INR (List.length current)
  else 0.

Definition matchPose (landmarks : list Point3D) : MatchResult :=
  if Nat.ltb (List.length landmarks) 21 then {| letter := None; score := 0 |}
  else
    let basis := computeHandBasis landmarks in
    let features := extractFeatures landmarks basis in
    select_best (calculateSimilarity features) CANONICAL_POSES None (-1).

Definition poseScore (landmarks : list Point3D) : list Point3D -> R :=
  calculateSimilarity (extractFeatures landmarks (computeHandBasis landmarks)).

Definition calculateTargetSimilarity (landmarks : list Point3D)
    (targetLetter : string) : R :=
  if Nat.ltb (List.length landmarks) 21 then 0 else
  match lookup targetLetter CANONICAL_POSES with
  | None => 0
  | Some targetPose =>
      let basis := computeHandBasis landmarks in
      let features := extractFeatures landmarks basis in
      let sim := calculateSimilarity features targetPose in
      Rmax 0 sim
  end.

End Cosine.

(** *** Rule-based matcher (src/lib/GestureLogic.ts, [GestureLogic.analyze]) *)
Module GestureLogic.

Record CurlState := mkCurl {
  thumb : bool; index : bool; middle : bool; ring : bool; pinky : bool }.

Definition getExtensions (l : list Point3D) : CurlState :=
  let wrist := lm l 0 in
  let isExtended tipIdx mcpIdx :=
    gtb (dist (lm l tipIdx) wrist) (dist (lm l mcpIdx) wrist * 1.2) in
  let thumbExtended :=
    gtb (dist (lm l 4) (lm l 5)) (dist wrist (lm l 5) * 0.7) in
  {| thumb := thumbExtended; index := isExtended 8%nat 5%nat;
     middle := isExtended 12%nat 9%nat; ring := isExtended 16%nat 13%nat;
     pinky := isExtended 20%nat 17%nat |}.

Definition isThumbIndexTouching (l : list Point3D) : bool :=
  ltb (dist (lm l 4) (lm l 8)) (dist (lm l 5) (lm l 9) * 1.8).

Definition getFingerSpread (l : list Point3D) : R :=
  let tipDist := dist (lm l 8) (lm l 12) in
  let mcpDist := dist (lm l 5) (lm l 9) in
  if Rlt_dec 0 mcpDist then tipDist / mcpDist else 0.

(** [isThumbOut] is computed by the source only for its debug log; it does
    not influence the result and is left out. *)
Definition analyze (l : list Point3D) : option string * R :=
  if Nat.ltb (List.length l) 21 then (None, 0) else
  let ext := getExtensions l in
  let spread := getFingerSpread l in
  let thumbIndexTouching := isThumbIndexTouching l in
  let fingerCount :=
    List.length (filter (fun b : bool => b)
                        [index ext; middle ext; ring ext; pinky ext]) in
  if thumbIndexTouching && middle ext && ring ext && pinky ext
  then (Some "F"%string, 1)
  else if Nat.eqb fingerCount 4 then (Some "B"%string, 1)
  else if Nat.eqb fingerCount 3
          && (index ext && middle ext && ring ext && negb (pinky ext))
  then (Some "W"%string, 1)
  else if Nat.eqb fingerCount 2
          && (index ext && middle ext && negb (ring ext) && negb (pinky ext))
  then (if ltb spread 0.8 then (Some "R"%string, 1)
        else if gtb spread 1.5 then (Some "V"%string, 1)
        else (Some "U"%string, 1))
  else if Nat.eqb fingerCount 1
          && (pinky ext && negb (ring ext) && negb (middle ext)
              && negb (index ext))
  then (if thumb ext then (Some "Y"%string, 1) else (Some "I"%string, 1))
  else if Nat.eqb fingerCount 1 && (index ext && negb (middle ext))
  then (if thumb ext then (Some "L"%string, 1) else (Some "D"%string, 1))
  else if Nat.eqb fingerCount 0 then (Some "A"%string, 1)
  else (None, 0).

End GestureLogic.

(** [detectionData.bestMatch] of [useHandTracking]
    (src/hooks/useHandTracking.ts): [match.score > 0.6 ? match.letter : null]. *)
Definition bestMatch (m : MatchResult) : option string :=
  if Rlt_dec 0.6 (score m) then letter m else None.

(** ** Per-finger curl hysteresis ([GestureEngine], second part of
    src/hooks/useStablePrediction.ts) *)

Inductive FingerState := Extended | Folded | Closed.

Definition FingerState_eqb (a b : FingerState) : bool :=
  match a, b with
  | Extended, Extended | Folded, Folded | Closed, Closed => true
  | _, _ => false
  end.

(** The decision of [getFingerState] once the measurements are taken:
    [pipAngle] is the MCP-PIP-TIP angle ([calculateAngle]), [tipDist] and
    [mcpDist] the wrist distances. The thresholds are parameters:
    [extendThresh = lastState === 'Extended' ? exitT : enterT]. *)
Definition finger_decide (enterT exitT : R) (lastState : FingerState)
    (pipAngle tipDist mcpDist : R) : FingerState :=
  let extendThresh := if FingerState_eqb lastState Extended then exitT else enterT in
  if Rlt_dec extendThresh pipAngle then Extended
  else if Rlt_dec (mcpDist * 1.1) tipDist then Folded
  else Closed.

(** [getFingerState] as written: entry above 155 degrees, exit at or below 140. *)
Definition getFingerState (lastState : FingerState)
    (pipAngle tipDist mcpDist : R) : FingerState :=
  finger_decide 155 140 lastState pipAngle tipDist mcpDist.

(** The state map starts empty, read as ['Closed']; every call stores the
    decided state. A frame gives the three measurements of one finger. *)
Fixpoint finger_run (decide : FingerState -> R -> R -> R -> FingerState)
    (st : FingerState) (frames : list (R * R * R)) : list FingerState :=
  match frames with
  | [] => []
  | (a, t, m) :: rest =>
      let st' := decide st a t m in st' :: finger_run decide st' rest
  end.

Inductive ThumbState := TExtended | TClosed | TSide | TOver | TUnder.

(** The decision of [getThumbState] from its measurements: [zDiff],
    [palmSize], [distToRing], [distToIndex] and the IP angle [thumbAngle]. *)
Definition getThumbState (thumbState : ThumbState)
    (zDiff palmSize distToRing distToIndex thumbAngle : R) : ThumbState :=
  let isOver := match thumbState with TOver => true | _ => false end in
  let isUnder := match thumbState with TUnder => true | _ => false end in
  let isCrossing := ltb distToRing (distToIndex * 1.3) in
  let overZThresh := if isOver then 0.02 else -0.01 in
  if isCrossing && ltb distToRing (palmSize * 0.9) && ltb zDiff overZThresh
  then TOver
  else
    let underZThresh := if isUnder then -0.01 else 0.02 in
    if ltb distToIndex (palmSize * 0.6) && gtb zDiff underZThresh then TUnder
    else if gtb thumbAngle 150 then
      (if gtb distToIndex (palmSize * 0.3) then TExtended else TSide)
    else TSide.

(** ** Feature vector of the KNN recognizer ([landmarksToFeatures] of
    src/lib/RecognitionService.ts). Its callers [train] and [predict] return
    before calling it when fewer than 21 landmarks are given. *)
Definition landmarksToFeatures (landmarks : list Point3D) : list R :=
  let wrist := lm landmarks 0 in
  let features :=
    flat_map (fun i => let p := lm landmarks i in
                       [x p - x wrist; y p - y wrist; z p - z wrist])
             (seq 0 21) in
  let magnitude :=
    let m := sqrt (fold_left (fun sum v => sum + v * v) features 0) in
    if Req_EM_T m 0 then 1 else m in
  map (fun v => v / magnitude) features.

(** ** The landmark engine ([GestureEngine], second part of
    src/hooks/useStablePrediction.ts) *)
Module Engine.

Inductive Finger := Index | Middle | Ring | Pinky.

Definition fingerName (f : Finger) : string :=
  match f with
  | Index => "Index" | Middle => "Middle" | Ring => "Ring" | Pinky => "Pinky"
  end.

(** [indices[fingerName]] without the wrist: [(mcp, pip, tip)]. *)
Definition indices (f : Finger) : nat * nat * nat :=
  match f with
  | Index => (5, 6, 8) | Middle => (9, 10, 12)
  | Ring => (13, 14, 16) | Pinky => (17, 18, 20)
  end%nat.

(** The private fields of the class. The map [fingerStates] is an association
    list, newest entry first. *)
Record State := mkState {
  landmarks : option (list Point3D);
  worldLandmarks : option (list Point3D);
  fingerStates : list (string * FingerState);
  thumbState : ThumbState }.

Definition init : State :=
  {| landmarks := None; worldLandmarks := None; fingerStates := [];
     thumbState := TSide |}.

Definition alpha : R := 0.65.

Definition lerp (start end_ amt : R) : R := (1 - amt) * start + amt * end_.

(** [prev.map((p, i) => ...curr[i]...)]: past the end of [curr], [curr[i]]
    is [undefined] and reading its [x] throws (None). *)
Fixpoint lerpLandmarks (prev curr : list Point3D) (amt : R)
    : option (list Point3D) :=
  match prev, curr with
  | [], _ => Some []
  | p :: ps, c :: cs =>
      match lerpLandmarks ps cs amt with
      | Some rest =>
          Some ({| x := lerp (x p) (x c) amt; y := lerp (y p) (y c) amt;
                   z := lerp (z p) (z c) amt |} :: rest)
      | None => None
      end
  | _ :: _, [] => None
  end.

(** [update(results)]: [hand] is [results.multiHandLandmarks?.[0]] and
    [world] is [results.multiHandWorldLandmarks?.[0] || null]. *)
Definition update (s : State) (hand world : option (list Point3D))
    : option State :=
  match hand with
  | None =>
      Some {| landmarks := None; worldLandmarks := None;
              fingerStates := fingerStates s; thumbState := thumbState s |}
  | Some rawLandmarks =>
      match landmarks s, worldLandmarks s, world with
      | Some l, Some w, Some rawWorld =>
          match lerpLandmarks l rawLandmarks alpha with
          | None => None
          | Some l' =>
              match lerpLandmarks w rawWorld alpha with
              | None => None
              | Some w' =>
                  Some {| landmarks := Some l'; worldLandmarks := Some w';
                          fingerStates := fingerStates s;
                          thumbState := thumbState s |}
              end
          end
      | _, _, _ =>
          Some {| landmarks := Some rawLandmarks; worldLandmarks := world;
                  fingerStates := fingerStates s; thumbState := thumbState s |}
      end
  end.

(** [calculateAngle(a, b, c)] in degrees. When [a] or [c] coincides with [b]
    a magnitude is 0, the quotient is NaN and so is [Math.acos] of it: None. *)
Definition calculateAngle (a b c : Point3D) : option R :=
  let v1 := sub a b in
  let v2 := sub c b in
  let d := dot v1 v2 in
  let mag1 := magnitude v1 in
  let mag2 := magnitude v2 in
  if Req_EM_T (mag1 * mag2) 0 then None
  else Some (acos (d / (mag1 * mag2)) * 180 / PI).

Definition getPalmSize (s : State) : R :=
  match worldLandmarks s with
  | None => 0
  | Some w => dist (lm w 0) (lm w 5)
  end.

(** [getFingerState(fingerName)]: the result and the engine after
    [this.fingerStates.set]. The decision on a number angle is the
    [getFingerState] above; a NaN angle fails both [pipAngle > extendThresh]
    and [pipAngle <= extendThresh], which leaves 'Closed'. *)
Definition getFingerState (s : State) (f : Finger) : FingerState * State :=
  match worldLandmarks s with
  | None => (Closed, s)
  | Some w =>
      let '(mcp, pip, tip) := indices f in
      let lastState :=
        match lookup (fingerName f) (fingerStates s) with
        | Some st => st
        | None => Closed
        end in
      let result :=
        match calculateAngle (lm w mcp) (lm w pip) (lm w tip) with
        | Some pipAngle =>
            getFingerState lastState pipAngle (dist (lm w 0) (lm w tip))
              (dist (lm w 0) (lm w mcp))
        | None => Closed
        end in
      (result, {| landmarks := landmarks s; worldLandmarks := worldLandmarks s;
                  fingerStates := (fingerName f, result) :: fingerStates s;
                  thumbState := thumbState s |})
  end.

(** [getThumbState()]: the decision is the [getThumbState] above. The IP
    angle is used only in [thumbAngle > 150], which a NaN angle fails as
    150 does. *)
Definition getThumbState (s : State) : ThumbState * State :=
  match worldLandmarks s with
  | None => (TClosed, s)
  | Some w =>
      let tTip := lm w 4 in
      let iMcp := lm w 5 in
      let rMcp := lm w 13 in
      let zDiff := z tTip - z iMcp in
      let palmSize := getPalmSize s in
      let distToRing := dist tTip rMcp in
      let distToIndex := dist tTip iMcp in
      let thumbAngle :=
        match calculateAngle (lm w 2) (lm w 3) (lm w 4) with
        | Some a => a
        | None => 150
        end in
      let result :=
        getThumbState (thumbState s) zDiff palmSize distToRing distToIndex
          thumbAngle in
      (result, {| landmarks := landmarks s; worldLandmarks := worldLandmarks s;
                  fingerStates := fingerStates s; thumbState := result |})
  end.

Definition getSemanticStates (s : State) : list string :=
  match worldLandmarks s with
  | None => []
  | Some w =>
      let palmSize := getPalmSize s in
      let tTip := lm w 4 in
      let iTip := lm w 8 in
      let mTip := lm w 12 in
      let pMcp := lm w 17 in
      let pinch :=
        (if ltb (dist tTip iTip) (palmSize * 0.3)
         then ["Thumb Touching Index"%string] else [])
        ++ (if ltb (dist tTip mTip) (palmSize * 0.3)
            then ["Thumb Touching Middle"%string] else []) in
      let totalDistToThumb :=
        fold_left (fun total idx => total + dist (lm w 4) (lm w idx))
                  [8; 12; 16; 20]%nat 0 in
      let avgDistToThumb := totalDistToThumb / 4 in
      let circular :=
        if ltb avgDistToThumb (palmSize * 0.9)
        then ["Circular Shape"%string] else [] in
      let indexMidDist := dist iTip mTip in
      let crossing :=
        if ltb indexMidDist (palmSize * 0.35) then
          "Index/Middle Together"%string
          :: (if ltb (dist iTip pMcp) (dist mTip pMcp)
              then ["Index/Middle Crossed"%string] else [])
        else if gtb indexMidDist (palmSize * 0.5)
        then ["Index/Middle Spread"%string] else [] in
      pinch ++ circular ++ crossing
  end.

End Engine.

(** ** [detectionData.fingerStates] of [useHandTracking]
    (src/hooks/useHandTracking.ts, the version over [engineRef]) *)

Definition stateName (st : FingerState) : string :=
  match st with
  | Extended => "Extended" | Folded => "Folded" | Closed => "Closed"
  end.

(** [states.splice(states.indexOf(s), 1)] guarded by [idx > -1]. *)
Fixpoint removeFirst (s : string) (l : list string) : list string :=
  match l with
  | [] => []
  | h :: t => if String.eqb h s then t else h :: removeFirst s t
  end.

(** One [fingers.forEach] step: ask the engine, push ["<f> <state>"] unless
    'Closed'. *)
Definition pushFinger (acc : list string * Engine.State) (f : Engine.Finger)
    : list string * Engine.State :=
  let '(states, s) := acc in
  let '(st, s') := Engine.getFingerState s f in
  (if FingerState_eqb st Closed then states
   else states ++ [String.append (Engine.fingerName f)
                    (String.append " " (stateName st))], s').

Definition thumbStrings (t : ThumbState) : list string :=
  match t with
  | TExtended => ["Thumb Extended"%string]
  | TOver => ["Thumb Over"%string]
  | TUnder => ["Thumb Under"%string]
  | TSide => ["Thumb Side"%string]
  | TClosed => []
  end.

(** The [fingerStates] IIFE, run on the engine [onResults] has just updated;
    [hand] is [results?.multiHandLandmarks?.[0]]. *)
Definition detectFingerStates (hand : option (list Point3D)) (s : Engine.State)
    : list string * Engine.State :=
  match hand with
  | None => (["Searching..."%string], s)
  | Some _ =>
      let '(states, s4) :=
        fold_left pushFinger
          [Engine.Index; Engine.Middle; Engine.Ring; Engine.Pinky] ([], s) in
      let '(thumbState, s5) := Engine.getThumbState s4 in
      let states := states ++ thumbStrings thumbState in
      let states := states ++ Engine.getSemanticStates s5 in
      let states :=
        if existsb (String.eqb "Thumb Touching Index") states
        then removeFirst "Index Extended" states else states in
      (match states with [] => ["Fist / Closed"%string] | _ => states end, s5)
  end.

(** The strings [getSemanticStates], the four finger pushes and the thumb
    push of [detectFingerStates] can emit. *)
Definition semanticVocab : list string :=
  ["Thumb Touching Index"; "Thumb Touching Middle"; "Circular Shape";
   "Index/Middle Together"; "Index/Middle Crossed"; "Index/Middle Spread"]%string.

Definition fingerVocab : list string :=
  ["Index Extended"; "Index Folded"; "Middle Extended"; "Middle Folded";
   "Ring Extended"; "Ring Folded"; "Pinky Extended"; "Pinky Folded"]%string.

Definition thumbVocab : list string :=
  ["Thumb Extended"; "Thumb Over"; "Thumb Under"; "Thumb Side"]%string.

(** ** Temporal stabilizers *)

(** A landmark set whose index MCP is (0,1,0), pinky MCP (1,1,0) and every
    other point the origin. *)
Definition sample_hand : list Point3D :=
  repeat zero3 5 ++ [P 0 1 0] ++ repeat zero3 11 ++ [P 1 1 0] ++ repeat zero3 3.

(** A 21-point landmark set whose cosine-engine basis is the identity frame,
    with finger directions thumb -y, index +x, middle -x, ring -x, pinky -z:
    a hand no canonical cosine pose resembles. *)
Definition neg_hand : list Point3D :=
  [P 0 0 0; zero3; P 0 0 0; zero3; P 0 (-1) 0;
   P 1 1 0; zero3; zero3; P 2 1 0;
   P 0 1 0; zero3; zero3; P (-1) 1 0;
   P 0 0 0; zero3; zero3; P (-1) 0 0;
   P (-1) 1 0; zero3; zero3; P (-1) 1 (-1)].

Open Scope Q_scope.

(** A raw label is truthy in JavaScript when it is a non-empty string. *)
Definition truthy (l : option string) : bool :=
  match l with Some s => negb (String.eqb s "") | None => false end.

Definition opt_eqb (a b : option string) : bool :=
  match a, b with
  | Some s, Some t => String.eqb s t
  | None, None => true
  | _, _ => false
  end.

(** [n / total >= t] on JavaScript numbers; [total = 0] gives NaN, false. *)
Definition ratio_ge (n total : nat) (t : Q) : bool :=
  match total with
  | O => false
  | S _ => Qle_bool t (Z.of_nat n # Pos.of_nat total)
  end.

(** *** Sliding-window consensus ([useStablePrediction]) *)
Module Stable.

Fixpoint get (counts : list (string * nat)) (k : string) : nat :=
  match counts with
  | [] => 0
  | (k', n) :: rest => if String.eqb k k' then n else get rest k
  end.

Definition set (counts : list (string * nat)) (k : string) (n : nat)
    : list (string * nat) :=
  (k, n) :: counts.

Record Tally := mkTally {
  counts : list (string * nat); maxCount : nat;
  mostFrequent : option string; nullCount : nat }.

(** One iteration of [for (const pred of bufferRef.current)]. *)
Definition tally_step (t : Tally) (pred : option string) : Tally :=
  match pred with
  | None => {| counts := counts t; maxCount := maxCount t;
               mostFrequent := mostFrequent t; nullCount := S (nullCount t) |}
  | Some p =>
      let n := S (get (counts t) p) in
      let counts' := set (counts t) p n in
      if Nat.ltb (maxCount t) n
      then {| counts := counts'; maxCount := n; mostFrequent := Some p;
              nullCount := nullCount t |}
      else {| counts := counts'; maxCount := maxCount t;
              mostFrequent := mostFrequent t; nullCount := nullCount t |}
  end.

Definition tally (buffer : list (option string)) : Tally :=
  fold_left tally_step buffer
    {| counts := []; maxCount := 0; mostFrequent := None; nullCount := 0 |}.

Record State := mkState {
  lastRaw : option (option string);  (** effect dependency of the last run *)
  buffer : list (option string);
  stablePrediction : option string }.

Definition init : State :=
  {| lastRaw := None; buffer := []; stablePrediction := None |}.

(** The body of the [useEffect]: push, trim by one, count, check consensus. *)
Definition effect (windowSize : nat) (threshold : Q) (s : State)
    (rawPrediction : option string) : State :=
  let pushed := buffer s ++ [rawPrediction] in
  let buf := if Nat.ltb windowSize (List.length pushed) then tl pushed else pushed in
  let tl_ := tally buf in
  let total := List.length buf in
  let nextPrediction :=
    if truthy (mostFrequent tl_) && ratio_ge (maxCount tl_) total threshold
    then mostFrequent tl_
    else if ratio_ge (nullCount tl_) total threshold then None
    else stablePrediction s in
  {| lastRaw := Some rawPrediction; buffer := buf;
     stablePrediction := nextPrediction |}.

(** One render of the hook: React runs the effect only when a dependency
    ([rawPrediction], [windowSize], [threshold]) differs from the previous
    render; [windowSize] and [threshold] are fixed here. *)
Definition frame (windowSize : nat) (threshold : Q) (s : State)
    (rawPrediction : option string) : State :=
  match lastRaw s with
  | Some r => if opt_eqb r rawPrediction then s
              else effect windowSize threshold s rawPrediction
  | None => effect windowSize threshold s rawPrediction
  end.

Definition run (windowSize : nat) (threshold : Q) (frames : list (option string))
    : State :=
  fold_left (frame windowSize threshold) frames init.

(** Reference reading of the consensus rule stated per frame: every frame is
    entered in the window of the last [windowSize] frames. *)
Definition run_every_frame (windowSize : nat) (threshold : Q)
    (frames : list (option string)) : State :=
  fold_left (effect windowSize threshold) frames init.

End Stable.

(** *** Consecutive-frame debounce and live accuracy ([App], unnamed/part_001) *)
Module Debounce.

Record State := mkState {
  lastFrameLetter : option string; frameCount : nat;
  detectedLetter : option string; liveAccuracy : Z }.

Definition init : State :=
  {| lastFrameLetter := None; frameCount := 0; detectedLetter := None;
     liveAccuracy := 0 |}.

(** [Math.round(v)] for a non-NaN number. *)
Definition round (v : Q) : Z := Qfloor (v + (1 # 2)).

(** One run of the main interpretation loop, given [analyzePose()]'s
    [currentDetection] and [targetSimilarity]. *)
Definition step (s : State) (currentDetection : option string)
    (targetSimilarity : Q) : State :=
  let '(last, cnt) :=
    if opt_eqb currentDetection (lastFrameLetter s)
    then (lastFrameLetter s, S (frameCount s))
    else (currentDetection, O) in
  if Nat.leb 3 cnt && truthy currentDetection then
    {| lastFrameLetter := last; frameCount := cnt;
       detectedLetter := currentDetection;
       liveAccuracy := round (targetSimilarity * 100) |}
  else
    {| lastFrameLetter := last; frameCount := cnt;
       detectedLetter := if negb (truthy currentDetection) then None
                         else detectedLetter s;
       liveAccuracy := Z.max 0 (liveAccuracy s - 5) |}.

(** Whether a run of the effect changed App's state: React re-renders App,
    and so runs the effect again, only when [setDetectedLetter] or
    [setLiveAccuracy] stored a value different from the current one. *)
Definition changed (s s' : State) : bool :=
  negb (opt_eqb (detectedLetter s) (detectedLetter s'))
  || negb (Z.eqb (liveAccuracy s) (liveAccuracy s')).

(** The runs of the effect on one camera frame. Every render of App builds a
    new [detectionData] object, hence a new [analyzePose] callback, so the
    effect (which depends on both) runs after each render of App; the
    re-renders read the same [results], so every run sees the same
    [currentDetection] and [targetSimilarity]. The runs stop after the first
    one that changes no state; [fuel] bounds their number (it is never
    reached, see [settle_ends]). *)
Fixpoint settle (fuel : nat) (s : State) (currentDetection : option string)
    (targetSimilarity : Q) : State :=
  match fuel with
  | O => s
  | S n =>
      let s' := step s currentDetection targetSimilarity in
      if changed s s' then settle n s' currentDetection targetSimilarity else s'
  end.

(** A bound on the runs of the effect still to come on a frame whose
    [analyzePose()] result is ([currentDetection], [targetSimilarity]):
    every run that changes App's state lowers it. *)
Definition runs_left (s : State) (currentDetection : option string)
    (targetSimilarity : Q) : nat :=
  if truthy currentDetection then
    (2 * (if opt_eqb currentDetection (lastFrameLetter s)
          then 2 - frameCount s else 3)
     + (if opt_eqb (detectedLetter s) currentDetection
           && Z.eqb (liveAccuracy s) (round (targetSimilarity * 100))
        then 0 else 1))%nat
  else
    ((if Z.ltb (liveAccuracy s) 0 then 1 else Z.to_nat (liveAccuracy s))
     + (if opt_eqb (detectedLetter s) None then 0 else 1))%nat.

(** One camera frame (a new [results] from the hand tracker, with App
    ready): the effect runs until a run changes nothing. *)
Definition frame (s : State) (currentDetection : option string)
    (targetSimilarity : Q) : State :=
  settle (8 + Z.to_nat (liveAccuracy s)) s currentDetection targetSimilarity.

Definition run (s : State) (frames : list (option string * Q)) : State :=
  fold_left (fun s '(d, sim) => frame s d sim) frames s.

End Debounce.



(** *** [analyzePose] of [App] (unnamed/part_001) *)
Module Analyze.

Local Open Scope string_scope.

(** [a < b] on numbers. *)
Definition Qltb (a b : Q) : bool := negb (Qle_bool b a).

(** [s.includes(t)] on strings. *)
Definition includes (s t : string) : bool :=
  match String.index 0 t s with Some _ => true | None => false end.

(** The helpers [is], [count] and [only] over [detectionData.fingerStates]. *)
Definition is (states : list string) (f : string) : bool :=
  existsb (String.eqb f) states.

Definition extendedFingers (states : list string) : list string :=
  filter (fun s => includes s "Extended") states.

Definition count (states : list string) : nat :=
  List.length (extendedFingers states).

Definition only (states : list string) (fingers : list string) : bool :=
  Nat.eqb (List.length (extendedFingers states)) (List.length fingers)
  && forallb (fun f => existsb (String.eqb f) (extendedFingers states)) fingers.

Record PoseEntry := mkEntry { pmatch : bool; pscore : Q }.

(** The object literal [poses], in its key order. *)
Definition poses (states : list string) : list (string * PoseEntry) :=
  let is := is states in
  let only := only states in
  let count := count states in
  [("A"%string, {| pmatch := (only [] || only ["Thumb Extended"%string])
                             && is "Thumb Side" && negb (is "Index Folded");
                   pscore := 95 # 100 |});
   ("B"%string, {| pmatch := Nat.leb 4 count; pscore := 92 # 100 |});
   ("C"%string, {| pmatch := is "Circular Shape"
                             && negb (is "Thumb Touching Index")
                             && is "Index Folded";
                   pscore := 92 # 100 |});
   ("D"%string, {| pmatch := only ["Index Extended"%string]
                             || (only ["Index Extended"%string]
                                 && is "Thumb Touching Middle");
                   pscore := if is "Thumb Touching Middle"
                             then 98 # 100 else 85 # 100 |});
   ("E"%string, {| pmatch := is "Index Folded" && is "Middle Folded"
                             && is "Thumb Under";
                   pscore := 95 # 100 |});
   ("F"%string, {| pmatch := only ["Middle Extended"; "Ring Extended";
                                   "Pinky Extended"]%string;
                   pscore := 92 # 100 |});
   ("I"%string, {| pmatch := only ["Pinky Extended"%string]
                             && negb (is "Thumb Extended");
                   pscore := 90 # 100 |});
   ("L"%string, {| pmatch := only ["Index Extended"; "Thumb Extended"]%string;
                   pscore := 98 # 100 |});
   ("O"%string, {| pmatch := is "Circular Shape"
                             && (is "Thumb Touching Index"
                                 || is "Thumb Touching Middle")
                             && Nat.eqb count 0;
                   pscore := 98 # 100 |});
   ("R"%string, {| pmatch := only ["Index Extended"; "Middle Extended"]%string
                             && is "Index/Middle Crossed";
                   pscore := 96 # 100 |});
   ("S"%string, {| pmatch := is "Thumb Over" && negb (is "Index Folded");
                   pscore := 95 # 100 |});
   ("U"%string, {| pmatch := only ["Index Extended"; "Middle Extended"]%string
                             && is "Index/Middle Together"
                             && negb (is "Index/Middle Crossed");
                   pscore := 94 # 100 |});
   ("V"%string, {| pmatch := only ["Index Extended"; "Middle Extended"]%string
                             && is "Index/Middle Spread";
                   pscore := 96 # 100 |});
   ("W"%string, {| pmatch := only ["Index Extended"; "Middle Extended";
                                   "Ring Extended"]%string;
                   pscore := 92 # 100 |});
   ("Y"%string, {| pmatch := only ["Pinky Extended"; "Thumb Extended"]%string
                             || (is "Pinky Extended" && is "Thumb Extended"
                                 && Nat.eqb count 1);
                   pscore := 95 # 100 |})].

(** The [for (const [letter, data] of Object.entries(poses))] loop, from
    [bestLetter = null], [maxSimilarity = 0]. *)
Definition best_step (confidence : Q) (acc : option string * Q)
    (entry : string * PoseEntry) : option string * Q :=
  let '(bestLetter, maxSimilarity) := acc in
  let '(letter, data) := entry in
  if pmatch data then
    let sim := pscore data * confidence in
    if Qltb maxSimilarity sim then (Some letter, sim)
    else (bestLetter, maxSimilarity)
  else (bestLetter, maxSimilarity).

(** [states[0] === 'Searching...'], false on an empty list. *)
Definition firstIsSearching (states : list string) : bool :=
  match states with
  | s :: _ => String.eqb s "Searching..."
  | [] => false
  end.

(** [analyzePose()]: [(detectedLetter, targetSimilarity)]. *)
Definition analyzePose (handCount : nat) (states : list string)
    (confidence : Q) (targetLetter : string) : option string * Q :=
  if Nat.eqb handCount 0 || firstIsSearching states
     || Qltb confidence (1 # 2)
  then (None, 0)
  else
    let '(bestLetter, _) :=
      fold_left (best_step confidence) (poses states) (None, 0) in
    let targetSim :=
      match lookup targetLetter (poses states) with
      | Some targetPose =>
          if pmatch targetPose then pscore targetPose * confidence else 0
      | None => 0
      end in
    (bestLetter, targetSim).

End Analyze.

(** *** Target navigation and the main interpretation loop of [App] *)

Definition ALPHABET : list string :=
  ["A"; "B"; "C"; "D"; "E"; "F"; "I"; "L"; "O"; "R"; "S"; "U"; "V"; "W";
   "Y"]%string.

(** [ALPHABET[targetIndex]]; [undefined] out of range. *)
Definition targetLetterAt (targetIndex : Z) : option string :=
  if (0 <=? targetIndex)%Z then nth_error ALPHABET (Z.to_nat targetIndex)
  else None.

(** [%] on integers truncates, as [Z.rem] does. *)
Definition handleNext (prev : Z) : Z :=
  Z.rem (prev + 1) (Z.of_nat (List.length ALPHABET)).

Definition handlePrev (prev : Z) : Z :=
  Z.rem (prev - 1 + Z.of_nat (List.length ALPHABET))
        (Z.of_nat (List.length ALPHABET)).

(** The body of the main loop once [isReady]: [analyzePose()] on the
    current [detectionData], then the debounce step. *)
Definition loopStep (s : Debounce.State) (handCount : nat)
    (states : list string) (confidence : Q) (targetLetter : string)
    : Debounce.State :=
  let '(currentDetection, targetSimilarity) :=
    Analyze.analyzePose handCount states confidence targetLetter in
  Debounce.step s currentDetection targetSimilarity.

Close Scope Q_scope.

(** ** Moving a whole landmark set

    Used to state invariance properties of the matchers; not part of the
    source. [rot qa qb qc qd] is the rotation given by the quaternion
    (qa, qb, qc, qd), a proper rotation when that quaternion has norm 1, and
    [move] rotates, scales by [k] and translates by [t]. *)

Definition add (a b : Point3D) : Point3D :=
  {| x := x a + x b; y := y a + y b; z := z a + z b |}.

Definition rot (qa qb qc qd : R) (v : Point3D) : Point3D :=
  {| x := (qa * qa + qb * qb - qc * qc - qd * qd) * x v
          + 2 * (qb * qc - qa * qd) * y v + 2 * (qb * qd + qa * qc) * z v;
     y := 2 * (qb * qc + qa * qd) * x v
          + (qa * qa - qb * qb + qc * qc - qd * qd) * y v
          + 2 * (qc * qd - qa * qb) * z v;
     z := 2 * (qb * qd - qa * qc) * x v + 2 * (qc * qd + qa * qb) * y v
          + (qa * qa - qb * qb - qc * qc + qd * qd) * z v |}.

Definition move (qa qb qc qd k : R) (t : Point3D) (p : Point3D) : Point3D :=
  add (scale k (rot qa qb qc qd p)) t.

Definition rotB (qa qb qc qd : R) (b : Basis) : Basis :=
  {| bx := rot qa qb qc qd (bx b); by_ := rot qa qb qc qd (by_ b);
     bz := rot qa qb qc qd (bz b) |}.

(** ** Facts about the kernel *)

Lemma dot_self_nonneg (v : Point3D) : 0 <= dot v v.
Proof. unfold dot; nra. Qed.

Lemma nonzero_dot_pos (v : Point3D) : nonzero v <-> 0 < dot v v.
Proof.
  unfold nonzero, dot; split.
  - intros H. destruct (Rlt_dec 0 (x v * x v + y v * y v + z v * z v))
      as [P|P]; [exact P|exfalso; apply H].
    assert (Ex : x v * x v = 0) by nra.
    assert (Ey : y v * y v = 0) by nra.
    assert (Ez : z v * z v = 0) by nra.
    apply Rmult_integral in Ex, Ey, Ez. intuition.
  - intros H [H1 [H2 H3]]. rewrite H1, H2, H3 in H. lra.
Qed.

Lemma magnitude_sq (v : Point3D) : magnitude v = sqrt (dot v v).
Proof. reflexivity. Qed.

Lemma magnitude_pos (v : Point3D) : nonzero v -> 0 < magnitude v.
Proof.
  intros H. apply nonzero_dot_pos in H. rewrite magnitude_sq.
  apply sqrt_lt_R0; exact H.
Qed.

Lemma normalize_nonzero (v : Point3D) :
  nonzero v -> normalize v = scale (/ magnitude v) v.
Proof.
  intros H. pose proof (magnitude_pos v H) as Hm.
  unfold normalize. destruct (Req_EM_T (magnitude v) 0) as [E|_]; [lra|].
  unfold scale; f_equal; unfold Rdiv; ring.
Qed.

Lemma normalize_zero_vec (v : Point3D) :
  ~ nonzero v -> normalize v = v.
Proof.
  intros H. unfold nonzero in H.
  assert (E : x v = 0 /\ y v = 0 /\ z v = 0) by tauto.
  destruct E as [E1 [E2 E3]].
  unfold normalize, magnitude. rewrite E1, E2, E3.
  replace (0 * 0 + 0 * 0 + 0 * 0) with 0 by ring. rewrite sqrt_0.
  destruct (Req_EM_T 0 0) as [_|n]; [|lra].
  destruct v; simpl in *; subst; f_equal; unfold Rdiv; ring.
Qed.

Lemma dot_scale_l (k : R) (a b : Point3D) : dot (scale k a) b = k * dot a b.
Proof. unfold dot, scale; simpl; ring. Qed.

Lemma dot_scale_r (k : R) (a b : Point3D) : dot a (scale k b) = k * dot a b.
Proof. unfold dot, scale; simpl; ring. Qed.

Lemma dot_comm (a b : Point3D) : dot a b = dot b a.
Proof. unfold dot; ring. Qed.

Lemma cross_scale_l (k : R) (a b : Point3D) :
  cross (scale k a) b = scale k (cross a b).
Proof. unfold cross, scale; simpl; f_equal; ring. Qed.

Lemma dot_cross_l (a b : Point3D) : dot (cross a b) a = 0.
Proof. unfold dot, cross; simpl; ring. Qed.

Lemma dot_cross_r (a b : Point3D) : dot (cross a b) b = 0.
Proof. unfold dot, cross; simpl; ring. Qed.

(** Lagrange's identity. *)
Lemma dot_cross_cross (a b : Point3D) :
  dot (cross a b) (cross a b) = dot a a * dot b b - dot a b * dot a b.
Proof. unfold dot, cross; simpl; ring. Qed.

Lemma normalize_unit (v : Point3D) :
  nonzero v -> dot (normalize v) (normalize v) = 1.
Proof.
  intros H. pose proof (magnitude_pos v H) as Hm.
  rewrite normalize_nonzero by exact H.
  rewrite dot_scale_l, dot_scale_r.
  assert (Hs : magnitude v * magnitude v = dot v v).
  { rewrite magnitude_sq. apply sqrt_sqrt, dot_self_nonneg. }
  rewrite <- Hs. field. lra.
Qed.

Lemma scale_nonzero (k : R) (v : Point3D) :
  k <> 0 -> nonzero v -> nonzero (scale k v).
Proof.
  intros Hk Hv. apply nonzero_dot_pos. apply nonzero_dot_pos in Hv.
  rewrite dot_scale_l, dot_scale_r.
  assert (0 < k * k) by (apply Rsqr_pos_lt; exact Hk). nra.
Qed.

Lemma nonzero_cross_l (a b : Point3D) : nonzero (cross a b) -> nonzero a.
Proof.
  intros H [H1 [H2 H3]]. apply H. unfold cross; simpl.
  rewrite H1, H2, H3. repeat split; ring.
Qed.

Lemma unit_nonzero (v : Point3D) : dot v v = 1 -> nonzero v.
Proof. intros H. apply nonzero_dot_pos. lra. Qed.

(** A normalized non-zero vector is a positive multiple of it. *)
Lemma normalize_pos_scale (v : Point3D) :
  nonzero v -> exists k, 0 < k /\ normalize v = scale k v.
Proof.
  intros H. exists (/ magnitude v). split.
  - apply Rinv_0_lt_compat, magnitude_pos, H.
  - apply normalize_nonzero, H.
Qed.

(** The knuckle-bar construction from [d = pinkyMcp - indexMcp] and
    [w = indexMcp - wrist]: orthonormal once [d] and [cross (normalize d) w]
    are non-zero. *)
Lemma knuckle_basis_orthonormal (d w : Point3D) :
  nonzero d -> nonzero (cross (normalize d) w) ->
  let xa := normalize d in
  let za := normalize (cross xa w) in
  let ya := normalize (cross za xa) in
  dot xa xa = 1 /\ dot ya ya = 1 /\ dot za za = 1 /\
  dot xa ya = 0 /\ dot xa za = 0 /\ dot ya za = 0.
Proof.
  intros Hd Hc; cbv zeta.
  set (xa := normalize d) in *.
  assert (Hx : dot xa xa = 1) by (apply normalize_unit, Hd).
  destruct (normalize_pos_scale _ Hc) as [c [Hcp Ez]].
  set (za := normalize (cross xa w)) in *.
  assert (Hz : dot za za = 1) by (apply normalize_unit, Hc).
  assert (Hzx : dot za xa = 0).
  { rewrite Ez, dot_scale_l, dot_cross_l. ring. }
  assert (Hy0 : dot (cross za xa) (cross za xa) = 1).
  { rewrite dot_cross_cross, Hz, Hx, Hzx. ring. }
  assert (Hyn : nonzero (cross za xa)) by (apply unit_nonzero, Hy0).
  destruct (normalize_pos_scale _ Hyn) as [c' [Hcp' Ey]].
  assert (Hy : dot (normalize (cross za xa)) (normalize (cross za xa)) = 1)
    by (apply normalize_unit, Hyn).
  repeat split; try assumption.
  - rewrite dot_comm, Ey, dot_scale_l, dot_cross_r. ring.
  - rewrite dot_comm. exact Hzx.
  - rewrite Ey, dot_scale_l, dot_cross_l. ring.
Qed.

Lemma cross_normalize_nonzero (d w : Point3D) :
  nonzero (cross d w) -> nonzero d /\ nonzero (cross (normalize d) w).
Proof.
  intros Hnd.
  assert (Hd : nonzero d) by (apply (nonzero_cross_l d w), Hnd).
  split; [exact Hd|].
  destruct (normalize_pos_scale d Hd) as [k [Hk Ex]].
  rewrite Ex, cross_scale_l. apply scale_nonzero; [lra|exact Hnd].
Qed.

Lemma nonzero_dec (v : Point3D) : {nonzero v} + {~ nonzero v}.
Proof.
  destruct (Rlt_dec 0 (dot v v)) as [H|H].
  - left. apply nonzero_dot_pos, H.
  - right. intros Hn. apply H, nonzero_dot_pos, Hn.
Qed.

Lemma dot_not_nonzero_r (n v : Point3D) : ~ nonzero v -> dot n v = 0.
Proof.
  intros H. unfold nonzero in H.
  destruct (Req_EM_T (x v) 0), (Req_EM_T (y v) 0), (Req_EM_T (z v) 0);
    try tauto.
  unfold dot. rewrite e, e0, e1. ring.
Qed.

Lemma not_nonzero_iff (v : Point3D) : ~ nonzero v <-> (x v = 0 /\ y v = 0 /\ z v = 0).
Proof.
  split.
  - intros H. pose proof (dot_not_nonzero_r v v H) as E.
    unfold dot in E.
    assert (Ex : x v * x v = 0) by nra.
    assert (Ey : y v * y v = 0) by nra.
    assert (Ez : z v * z v = 0) by nra.
    apply Rmult_integral in Ex, Ey, Ez. intuition.
  - intros H Hn. exact (Hn H).
Qed.

Lemma cross_not_nonzero_l (a b : Point3D) : ~ nonzero a -> ~ nonzero (cross a b).
Proof.
  intros H. apply not_nonzero_iff in H. destruct H as [H1 [H2 H3]].
  apply not_nonzero_iff. unfold cross; simpl. rewrite H1, H2, H3.
  repeat split; ring.
Qed.

Lemma cross_not_nonzero_r (a b : Point3D) : ~ nonzero b -> ~ nonzero (cross a b).
Proof.
  intros H. apply not_nonzero_iff in H. destruct H as [H1 [H2 H3]].
  apply not_nonzero_iff. unfold cross; simpl. rewrite H1, H2, H3.
  repeat split; ring.
Qed.

Lemma normalize_not_nonzero (v : Point3D) : ~ nonzero v -> ~ nonzero (normalize v).
Proof. intros H. rewrite normalize_zero_vec by exact H. exact H. Qed.

Lemma cauchy_schwarz (a b : Point3D) : dot a b * dot a b <= dot a a * dot b b.
Proof.
  pose proof (dot_self_nonneg (cross a b)) as H.
  rewrite dot_cross_cross in H. lra.
Qed.

Lemma dot_bound (a b : Point3D) :
  dot a a <= 1 -> dot b b <= 1 -> -1 <= dot a b <= 1.
Proof.
  intros Ha Hb. pose proof (cauchy_schwarz a b) as H.
  pose proof (dot_self_nonneg a). pose proof (dot_self_nonneg b).
  assert (dot a b * dot a b <= 1) by nra.
  split; nra.
Qed.

Lemma normalize_norm_le (v : Point3D) : dot (normalize v) (normalize v) <= 1.
Proof.
  destruct (nonzero_dec v) as [H|H].
  - rewrite normalize_unit by exact H. lra.
  - rewrite (dot_not_nonzero_r _ _ (normalize_not_nonzero v H)). lra.
Qed.

Lemma dot_project (b : Basis) (n : Point3D) :
  dot (project b n) (project b n)
  = dot n (bx b) * dot n (bx b) + dot n (by_ b) * dot n (by_ b)
    + dot n (bz b) * dot n (bz b).
Proof. reflexivity. Qed.

(** Bessel's inequality for an orthonormal triple. *)
Lemma bessel3 (n e1 e2 e3 : Point3D) :
  dot e1 e1 = 1 -> dot e2 e2 = 1 -> dot e3 e3 = 1 ->
  dot e1 e2 = 0 -> dot e1 e3 = 0 -> dot e2 e3 = 0 ->
  dot n e1 * dot n e1 + dot n e2 * dot n e2 + dot n e3 * dot n e3 <= dot n n.
Proof.
  intros H1 H2 H3 H12 H13 H23.
  set (a := dot n e1). set (b := dot n e2). set (c := dot n e3).
  set (r := sub n (sub (scale a e1) (scale (-1) (sub (scale b e2)
                                                 (scale (-1) (scale c e3)))))).
  assert (E : dot r r = dot n n - 2 * (a * a + b * b + c * c)
                        + a * a * dot e1 e1 + b * b * dot e2 e2
                        + c * c * dot e3 e3 + 2 * a * b * dot e1 e2
                        + 2 * a * c * dot e1 e3 + 2 * b * c * dot e2 e3).
  { unfold r, a, b, c, dot, sub, scale; simpl. ring. }
  rewrite H1, H2, H3, H12, H13, H23 in E.
  pose proof (dot_self_nonneg r). lra.
Qed.

(** Every finger feature of the hybrid engine has length at most 1: the
    normalized finger vector is projected on a basis whose vectors are
    orthonormal, or zero where the construction degenerates. *)
Lemma project_norm_le (landmarks : list Point3D) (n : Point3D) :
  dot n n <= 1 ->
  dot (project (computeHandBasis landmarks) n)
      (project (computeHandBasis landmarks) n) <= 1.
Proof.
  intros Hn. rewrite dot_project. unfold computeHandBasis; cbv zeta; simpl.
  set (d := sub (lm landmarks 17) (lm landmarks 5)).
  set (w := sub (lm landmarks 5) (lm landmarks 0)).
  destruct (nonzero_dec d) as [Hd|Hd].
  - destruct (nonzero_dec (cross (normalize d) w)) as [Hc|Hc].
    + destruct (knuckle_basis_orthonormal d w Hd Hc)
        as [H1 [H2 [H3 [H12 [H13 H23]]]]].
      pose proof (bessel3 n _ _ _ H1 H2 H3 H12 H13 H23). lra.
    + assert (Hz := normalize_not_nonzero _ Hc).
      assert (Hy := normalize_not_nonzero _
                      (cross_not_nonzero_l _ (normalize d) Hz)).
      rewrite (dot_not_nonzero_r n _ Hz), (dot_not_nonzero_r n _ Hy).
      pose proof (cauchy_schwarz n (normalize d)) as Hcs.
      rewrite (normalize_unit d Hd) in Hcs. lra.
  - assert (Hx := normalize_not_nonzero _ Hd).
    assert (Hz := normalize_not_nonzero _ (cross_not_nonzero_l _ w Hx)).
    assert (Hy := normalize_not_nonzero _ (cross_not_nonzero_l _ (normalize d) Hz)).
    rewrite (dot_not_nonzero_r n _ Hx), (dot_not_nonzero_r n _ Hy),
      (dot_not_nonzero_r n _ Hz). lra.
Qed.

Lemma features_norm_le (landmarks : list Point3D) (f : Point3D) :
  In f (extractFeatures landmarks (computeHandBasis landmarks)) -> dot f f <= 1.
Proof.
  unfold extractFeatures. intros H. apply in_map_iff in H.
  destruct H as [[s e] [<- _]].
  apply project_norm_le, normalize_norm_le.
Qed.

Lemma features_length (landmarks : list Point3D) (b : Basis) :
  List.length (extractFeatures landmarks b) = 5%nat.
Proof. reflexivity. Qed.

Lemma sum_dots_bound (cs ts : list Point3D) :
  (forall c, In c cs -> dot c c <= 1) -> (forall t, In t ts -> dot t t <= 1) ->
  List.length cs = List.length ts ->
  - INR (List.length cs) <= sum_dots cs ts <= INR (List.length cs).
Proof.
  revert ts. induction cs as [|c cs IH]; intros ts Hc Ht Hl.
  - simpl. lra.
  - destruct ts as [|t ts]; [discriminate|]. simpl in Hl.
    injection Hl as Hl.
    assert (Hb := dot_bound c t (Hc c (or_introl eq_refl)) (Ht t (or_introl eq_refl))).
    assert (Hr := IH ts (fun c' H => Hc c' (or_intror H))
                        (fun t' H => Ht t' (or_intror H)) Hl).
    simpl sum_dots. rewrite length_cons, S_INR. lra.
Qed.

Lemma curlMatch_bound (c t : list bool) : 0 <= Hybrid.calculateCurlMatch c t <= 1.
Proof.
  unfold Hybrid.calculateCurlMatch.
  set (agree := fun i : nat => _).
  assert (Hl : (List.length (filter agree [0; 1; 2; 3; 4]%nat) <= 5)%nat).
  { apply (Nat.le_trans _ (List.length [0; 1; 2; 3; 4]%nat)).
    - apply filter_length_le.
    - reflexivity. }
  apply le_INR in Hl. pose proof (pos_INR (List.length (filter agree [0; 1; 2; 3; 4]%nat))).
  simpl INR in Hl at 2. split; unfold Rdiv; lra.
Qed.

Lemma hybrid_poses_norm_le :
  Forall (fun e => Forall (fun t => dot t t <= 1) (Hybrid.vectors (snd e))
                   /\ List.length (Hybrid.vectors (snd e)) = 5%nat)
         Hybrid.CANONICAL_POSES.
Proof.
  unfold Hybrid.CANONICAL_POSES.
  repeat constructor; unfold dot, P; simpl; lra.
Qed.

Lemma select_best_bound {Pose : Type} (sim : Pose -> R)
    (entries : list (string * Pose)) (bm : option string) (bs lo hi : R) :
  (forall l p, In (l, p) entries -> lo <= sim p <= hi) -> lo <= bs <= hi ->
  lo <= score (select_best sim entries bm bs) <= hi.
Proof.
  revert bm bs. induction entries as [|[l p] rest IH]; intros bm bs He Hb.
  - exact Hb.
  - simpl. destruct (Rlt_dec bs (sim p)).
    + apply IH; [intros; apply (He l0); right; assumption|].
      apply (He l); left; reflexivity.
    + apply IH; [intros; apply (He l0); right; assumption|exact Hb].
Qed.

Lemma select_best_bound_start {Pose : Type} (sim : Pose -> R)
    (entries : list (string * Pose)) (bm : option string) (bs lo hi : R) :
  (forall l p, In (l, p) entries -> lo <= sim p <= hi) -> bs <= hi ->
  entries <> [] ->
  lo <= score (select_best sim entries bm bs) <= hi.
Proof.
  intros He Hb Hne. destruct entries as [|[l p] rest]; [congruence|].
  assert (Hp : lo <= sim p <= hi) by (apply (He l); left; reflexivity).
  simpl. destruct (Rlt_dec bs (sim p)).
  - apply select_best_bound; [intros; apply (He l0); right; assumption|exact Hp].
  - apply select_best_bound; [intros; apply (He l0); right; assumption|lra].
Qed.

Lemma hybridScore_bound (landmarks : list Point3D) (l : string)
    (p : Hybrid.PoseDef) :
  In (l, p) Hybrid.CANONICAL_POSES ->
  0 <= Hybrid.hybridScore (extractFeatures landmarks (computeHandBasis landmarks))
                          (Hybrid.calculateCurls landmarks) p <= 1.
Proof.
  intros Hin.
  pose proof hybrid_poses_norm_le as HF. rewrite Forall_forall in HF.
  destruct (HF (l, p) Hin) as [Hv Hl]; simpl in Hv, Hl.
  rewrite Forall_forall in Hv.
  unfold Hybrid.hybridScore, Hybrid.calculateSimilarity.
  rewrite features_length, Hl. simpl Nat.eqb. cbv iota.
  assert (Hs := sum_dots_bound _ _ (features_norm_le landmarks) Hv
                  (eq_trans (features_length _ _) (eq_sym Hl))).
  rewrite features_length in Hs.
  pose proof (curlMatch_bound (Hybrid.calculateCurls landmarks) (Hybrid.curls p)).
  simpl INR in *. split; unfold Rdiv; lra.
Qed.

Lemma select_best_ge {Pose : Type} (sim : Pose -> R)
    (entries : list (string * Pose)) (bm : option string) (bs : R) :
  bs <= score (select_best sim entries bm bs) /\
  (forall l p, In (l, p) entries -> sim p <= score (select_best sim entries bm bs)).
Proof.
  revert bm bs. induction entries as [|[l p] rest IH]; intros bm bs.
  - simpl. split; [lra|tauto].
  - simpl. destruct (Rlt_dec bs (sim p)) as [Hlt|Hge].
    + destruct (IH (Some l) (sim p)) as [H1 H2]. split; [lra|].
      intros l' p' [E|Hin]; [injection E as <- <-; exact H1|apply (H2 l'), Hin].
    + destruct (IH bm bs) as [H1 H2]. split; [exact H1|].
      intros l' p' [E|Hin]; [injection E as <- <-; lra|apply (H2 l'), Hin].
Qed.

Lemma select_best_origin {Pose : Type} (sim : Pose -> R)
    (entries : list (string * Pose)) (bm : option string) (bs : R) :
  let m := select_best sim entries bm bs in
  (letter m = bm /\ score m = bs) \/
  (exists l p, In (l, p) entries /\ letter m = Some l /\ score m = sim p).
Proof.
  revert bm bs. induction entries as [|[l p] rest IH]; intros bm bs; simpl.
  - left; split; reflexivity.
  - destruct (Rlt_dec bs (sim p)).
    + destruct (IH (Some l) (sim p)) as [[E1 E2]|[l' [p' [Hin [E1 E2]]]]].
      * right. exists l, p. auto.
      * right. exists l', p'. auto.
    + destruct (IH bm bs) as [E|[l' [p' [Hin [E1 E2]]]]]; [left; exact E|].
      right. exists l', p'. auto.
Qed.

(** What [useHandTracking] reports from a run of the matching loop. *)
Lemma bestMatch_of_select_best {Pose : Type} (sim : Pose -> R)
    (entries : list (string * Pose)) :
  let m := select_best sim entries None (-1) in
  (forall l p, In (l, p) entries -> sim p <= score m) /\
  (score m < 0.6 -> bestMatch m = None) /\
  (forall l, bestMatch m = Some l ->
     0.6 < score m /\ exists p, In (l, p) entries /\ sim p = score m) /\
  (0.6 < score m -> exists l, bestMatch m = Some l).
Proof.
  cbv zeta. destruct (select_best_ge sim entries None (-1)) as [_ Hge].
  assert (Horig := select_best_origin sim entries None (-1)). cbv zeta in Horig.
  set (m := select_best sim entries None (-1)) in *.
  unfold bestMatch.
  split; [exact Hge|]. split; [|split].
  - intros Hlt. destruct (Rlt_dec 0.6 (score m)); [lra|reflexivity].
  - intros l H. destruct (Rlt_dec 0.6 (score m)) as [Hg|]; [|discriminate].
    split; [exact Hg|].
    destruct Horig as [[E1 E2]|[l' [p [Hin [E1 E2]]]]];
      rewrite E1 in H; [discriminate|].
    injection H as ->. exists p. auto.
  - intros Hg. destruct (Rlt_dec 0.6 (score m)); [|lra].
    destruct Horig as [[E1 E2]|[l' [p [Hin [E1 E2]]]]]; [lra|].
    exists l'. exact E1.
Qed.

Lemma Hybrid_matchPose_eq (landmarks : list Point3D) :
  (21 <= List.length landmarks)%nat ->
  Hybrid.matchPose landmarks
  = select_best (Hybrid.poseScore landmarks) Hybrid.CANONICAL_POSES None (-1).
Proof.
  intros H. unfold Hybrid.matchPose.
  destruct (Nat.ltb_spec (List.length landmarks) 21); [lia|reflexivity].
Qed.

Lemma Cosine_matchPose_eq (landmarks : list Point3D) :
  (21 <= List.length landmarks)%nat ->
  Cosine.matchPose landmarks
  = select_best (Cosine.poseScore landmarks) Cosine.CANONICAL_POSES None (-1).
Proof.
  intros H. unfold Cosine.matchPose.
  destruct (Nat.ltb_spec (List.length landmarks) 21); [lia|reflexivity].
Qed.

(** Case analysis on every real comparison left in the goal. *)
Ltac decide_reals :=
  repeat (cbn; match goal with
               | |- context [Rlt_dec ?a ?b] => destruct (Rlt_dec a b)
               end).

Lemma opt_eqb_true (a b : option string) : opt_eqb a b = true -> a = b.
Proof.
  destruct a as [s|], b as [t|]; simpl; try discriminate; [|reflexivity].
  intros H. apply String.eqb_eq in H. subst. reflexivity.
Qed.

Lemma opt_eqb_refl (a : option string) : opt_eqb a a = true.
Proof. destruct a; simpl; [apply String.eqb_refl|reflexivity]. Qed.


Lemma last_cons_default {A : Type} (a : A) (l : list A) (d : A) :
  last (a :: l) d = last l a.
Proof.
  revert a d. induction l as [|b l IH]; intros a d; [reflexivity|].
  change (last (b :: l) d = last (b :: l) a).
  rewrite (IH b d), (IH b a). reflexivity.
Qed.




Lemma Debounce_step_eq (s : Debounce.State) (d : option string) (q : Q) :
  Debounce.step s d q =
  if Nat.leb 3 (if opt_eqb d (Debounce.lastFrameLetter s)
                then S (Debounce.frameCount s) else O) && truthy d then
    {| Debounce.lastFrameLetter := d;
       Debounce.frameCount := if opt_eqb d (Debounce.lastFrameLetter s)
                              then S (Debounce.frameCount s) else O;
       Debounce.detectedLetter := d;
       Debounce.liveAccuracy := Debounce.round (q * 100) |}
  else
    {| Debounce.lastFrameLetter := d;
       Debounce.frameCount := if opt_eqb d (Debounce.lastFrameLetter s)
                              then S (Debounce.frameCount s) else O;
       Debounce.detectedLetter := if negb (truthy d) then None
                                  else Debounce.detectedLetter s;
       Debounce.liveAccuracy := Z.max 0 (Debounce.liveAccuracy s - 5) |}.
Proof.
  unfold Debounce.step.
  destruct (opt_eqb d (Debounce.lastFrameLetter s)) eqn:E;
    [apply opt_eqb_true in E; rewrite <- E|]; reflexivity.
Qed.

Lemma truthy_some (X : string) : truthy (Some X) = true -> String.eqb X "" = false.
Proof. simpl. destruct (String.eqb X ""); [discriminate|reflexivity]. Qed.

(** Each run of the effect that changes App's state lowers [runs_left]. *)
Lemma runs_left_decreases (s : Debounce.State) (d : option string) (q : Q) :
  Debounce.changed s (Debounce.step s d q) = true ->
  (Debounce.runs_left (Debounce.step s d q) d q < Debounce.runs_left s d q)%nat.
Proof.
  rewrite Debounce_step_eq. unfold Debounce.runs_left, Debounce.changed.
  destruct (truthy d) eqn:Et.
  - set (R := Debounce.round (q * 100)).
    set (a := Debounce.liveAccuracy s).
    destruct (opt_eqb (Debounce.detectedLetter s) d) eqn:Ed;
      destruct (Z.eqb a R) eqn:Ea;
      destruct (opt_eqb d (Debounce.lastFrameLetter s)) eqn:El;
      destruct (Debounce.frameCount s) as [|[|[|c]]];
      cbn [Nat.leb andb Debounce.lastFrameLetter Debounce.frameCount
           Debounce.detectedLetter Debounce.liveAccuracy negb orb];
      rewrite ?Et, ?Ed, ?Ea, ?opt_eqb_refl, ?Z.eqb_refl; cbn [andb negb orb];
      try discriminate;
      repeat match goal with |- context [if ?b then _ else _] => destruct b end;
      try discriminate; lia.
  - rewrite andb_false_r. cbn [Debounce.detectedLetter Debounce.liveAccuracy negb].
    simpl opt_eqb. intros Hc.
    destruct (opt_eqb (Debounce.detectedLetter s) None) eqn:Ed; simpl in Hc |- *;
      destruct (Z.ltb_spec (Debounce.liveAccuracy s) 0);
      destruct (Z.ltb_spec (Z.max 0 (Debounce.liveAccuracy s - 5)) 0); lia.
Qed.




(** More fuel does not change a frame: the fuel of [frame] is never what
    stops the runs. *)
Lemma settle_fuel_enough (d : option string) (q : Q) (n k : nat) (s : Debounce.State) :
  (Debounce.runs_left s d q < n)%nat ->
  Debounce.settle (n + k) s d q = Debounce.settle n s d q.
Proof.
  revert s. induction n as [|n IH]; intros s Hn; [lia|].
  simpl. destruct (Debounce.changed s (Debounce.step s d q)) eqn:Ch; [|reflexivity].
  apply IH. assert (H := runs_left_decreases s d q Ch). lia.
Qed.












Lemma normalize_eq (v : Point3D) (k a b c : R) :
  0 < k -> x v = k * a -> y v = k * b -> z v = k * c ->
  a * a + b * b + c * c = 1 -> normalize v = P a b c.
Proof.
  intros Hk Hx Hy Hz Hn.
  assert (Hm : magnitude v = k).
  { unfold magnitude. rewrite Hx, Hy, Hz.
    replace (k * a * (k * a) + k * b * (k * b) + k * c * (k * c)) with (k * k)
      by (transitivity (k * k * (a * a + b * b + c * c)); [rewrite Hn|]; ring).
    apply sqrt_square. lra. }
  unfold normalize. rewrite Hm.
  destruct (Req_EM_T k 0) as [E|_]; [lra|].
  unfold P. rewrite Hx, Hy, Hz. f_equal; field; lra.
Qed.

Lemma P_eq (a b c a' b' c' : R) :
  a = a' -> b = b' -> c = c' -> P a b c = P a' b' c'.
Proof. intros -> -> ->. reflexivity. Qed.

Lemma Cosine_neg_hand_basis :
  Cosine.computeHandBasis neg_hand
  = {| bx := P 1 0 0; by_ := P 0 1 0; bz := P 0 0 1 |}.
Proof.
  unfold Cosine.computeHandBasis. cbv zeta.
  assert (Hy0 : normalize (sub (lm neg_hand 9) (lm neg_hand 0)) = P 0 1 0)
    by (apply (normalize_eq _ 1); simpl; lra).
  assert (Hz : normalize (cross (sub (lm neg_hand 5) (lm neg_hand 0))
                                (sub (lm neg_hand 17) (lm neg_hand 0))) = P 0 0 1)
    by (apply (normalize_eq _ 2); simpl; lra).
  rewrite Hy0, Hz.
  assert (Hx : normalize (cross (P 0 1 0) (P 0 0 1)) = P 1 0 0)
    by (apply (normalize_eq _ 1); simpl; lra).
  rewrite Hx. f_equal. unfold cross. simpl. apply P_eq; lra.
Qed.

Lemma Cosine_neg_hand_features :
  extractFeatures neg_hand (Cosine.computeHandBasis neg_hand)
  = [P 0 (-1) 0; P 1 0 0; P (-1) 0 0; P (-1) 0 0; P 0 0 (-1)].
Proof.
  rewrite Cosine_neg_hand_basis. unfold extractFeatures, FINGER_VECTORS.
  cbn [map].
  rewrite (normalize_eq (sub (lm neg_hand 4) (lm neg_hand 2)) 1 0 (-1) 0)
    by (simpl; lra).
  rewrite (normalize_eq (sub (lm neg_hand 8) (lm neg_hand 5)) 1 1 0 0)
    by (simpl; lra).
  rewrite (normalize_eq (sub (lm neg_hand 12) (lm neg_hand 9)) 1 (-1) 0 0)
    by (simpl; lra).
  rewrite (normalize_eq (sub (lm neg_hand 16) (lm neg_hand 13)) 1 (-1) 0 0)
    by (simpl; lra).
  rewrite (normalize_eq (sub (lm neg_hand 20) (lm neg_hand 17)) 1 0 0 (-1))
    by (simpl; lra).
  unfold project, dot. simpl.
  repeat (apply (f_equal2 cons); [apply P_eq; lra|]). reflexivity.
Qed.

(** ** Claim theorems *)

(** C8: [normalize] maps every non-zero vector to a vector of magnitude 1
    and, on the zero vector, divides by 1 and returns it unchanged. *)
Theorem C8_normalize_unit_or_zero :
  (forall v : Point3D, nonzero v -> magnitude (normalize v) = 1) /\
  (if Req_EM_T (magnitude zero3) 0 then 1 else magnitude zero3) = 1 /\
  normalize zero3 = zero3.
Proof.
  split; [|split].
  - intros v H. rewrite magnitude_sq, normalize_unit by exact H. apply sqrt_1.
  - unfold magnitude, zero3; simpl.
    replace (0 * 0 + 0 * 0 + 0 * 0) with 0 by ring. rewrite sqrt_0.
    destruct (Req_EM_T 0 0); [reflexivity|lra].
  - apply normalize_zero_vec. unfold nonzero, zero3; simpl; tauto.
Qed.

Lemma C8_normalize_unit_or_zero_witness :
  nonzero (P 3 0 4) /\ magnitude (normalize (P 3 0 4)) = 1.
Proof.
  assert (H : nonzero (P 3 0 4)) by (unfold nonzero, P; simpl; lra).
  split; [exact H | apply (proj1 C8_normalize_unit_or_zero (P 3 0 4) H)].
Defined.


(** C7: when the wrist, index MCP and pinky MCP landmarks are not collinear,
    the three vectors of the knuckle-bar hand basis are unit vectors and
    pairwise orthogonal. *)
Theorem C7_handBasis_orthonormal (landmarks : list Point3D)
  (Hnd : nonzero (cross (sub (lm landmarks 17) (lm landmarks 5))
                        (sub (lm landmarks 5) (lm landmarks 0)))) :
  let b := computeHandBasis landmarks in
  dot (bx b) (bx b) = 1 /\ dot (by_ b) (by_ b) = 1 /\ dot (bz b) (bz b) = 1 /\
  dot (bx b) (by_ b) = 0 /\ dot (bx b) (bz b) = 0 /\ dot (by_ b) (bz b) = 0.
Proof.
  destruct (cross_normalize_nonzero _ _ Hnd) as [Hd Hc].
  exact (knuckle_basis_orthonormal _ _ Hd Hc).
Qed.

Lemma C7_handBasis_orthonormal_witness :
  nonzero (cross (sub (lm sample_hand 17) (lm sample_hand 5))
                 (sub (lm sample_hand 5) (lm sample_hand 0))) /\
  dot (bx (computeHandBasis sample_hand)) (by_ (computeHandBasis sample_hand)) = 0.
Proof.
  assert (H : nonzero (cross (sub (lm sample_hand 17) (lm sample_hand 5))
                             (sub (lm sample_hand 5) (lm sample_hand 0)))).
  { unfold nonzero, lm, sample_hand, cross, sub, P, zero3; simpl. lra. }
  split; [exact H|].
  exact (proj1 (proj2 (proj2 (proj2 (C7_handBasis_orthonormal sample_hand H))))).
Defined.

(** C3: the hybrid matcher's score lies in [0,1], and so does the hybrid score
    [0.4 * curlScore + 0.6 * (avgCosine + 1) / 2] of every canonical pose,
    with normalized observed finger vectors and the stored canonical ones.
    The cosine matcher of the earlier engine, documented as returning a
    score in (0-1), averages raw cosines without remapping them: on the
    21-point set [neg_hand] every canonical pose scores at most -0.04, and
    so does the reported best match. *)
Theorem C3_matcher_score_range :
  (forall landmarks,
     0 <= score (Hybrid.matchPose landmarks) <= 1 /\
     (forall l p, In (l, p) Hybrid.CANONICAL_POSES ->
        0 <= Hybrid.hybridScore
               (extractFeatures landmarks (computeHandBasis landmarks))
               (Hybrid.calculateCurls landmarks) p <= 1)) /\
  List.length neg_hand = 21%nat /\
  score (Cosine.matchPose neg_hand) <= -0.04.
Proof.
  split; [|split; [reflexivity|]].
  - intros landmarks. split; [|intros l p; apply hybridScore_bound].
    unfold Hybrid.matchPose. destruct (Nat.ltb _ 21); [simpl; lra|]. cbv zeta.
    set (sim := Hybrid.hybridScore _ _).
    assert (Hall : forall l p, In (l, p) Hybrid.CANONICAL_POSES -> 0 <= sim p <= 1)
      by (intros l p; apply hybridScore_bound).
    apply select_best_bound_start; [exact Hall|lra|discriminate].
  - rewrite Cosine_matchPose_eq by (simpl; lia).
    unfold Cosine.poseScore. rewrite Cosine_neg_hand_features.
    enough (H : -1 <= score (select_best
                  (Cosine.calculateSimilarity
                     [P 0 (-1) 0; P 1 0 0; P (-1) 0 0; P (-1) 0 0; P 0 0 (-1)])
                  Cosine.CANONICAL_POSES None (-1)) <= -0.04) by lra.
    apply select_best_bound; [|lra].
    intros l p Hin. simpl in Hin.
    repeat (destruct Hin as [E|Hin]; [injection E as <- <-|]); [..|contradiction];
      unfold Cosine.calculateSimilarity; simpl List.length; cbn [Nat.eqb];
      replace (INR 5) with 5 by (cbn [INR]; lra);
      unfold sum_dots, dot; simpl; lra.
Qed.

(** C1: on a landmark list with fewer than 21 points, [GestureLogic.analyze]
    and both [VectorEngine.matchPose] variants return a null label and
    score 0. *)
Theorem C1_short_landmarks_no_match (landmarks : list Point3D)
  (Hshort : (List.length landmarks < 21)%nat) :
  GestureLogic.analyze landmarks = (None, 0) /\
  Cosine.matchPose landmarks = {| letter := None; score := 0 |} /\
  Hybrid.matchPose landmarks = {| letter := None; score := 0 |}.
Proof.
  apply Nat.ltb_lt in Hshort.
  unfold GestureLogic.analyze, Cosine.matchPose, Hybrid.matchPose.
  rewrite Hshort. repeat split.
Qed.

Lemma C1_short_landmarks_no_match_witness :
  (List.length (repeat zero3 20) < 21)%nat /\
  Hybrid.matchPose (repeat zero3 20) = {| letter := None; score := 0 |}.
Proof.
  assert (H : (List.length (repeat zero3 20) < 21)%nat)
    by (rewrite repeat_length; lia).
  split; [exact H|].
  exact (proj2 (proj2 (C1_short_landmarks_no_match (repeat zero3 20) H))).
Defined.

(** C2: for a landmark set of at least 21 points, [useHandTracking] reports
    [bestMatch] from the pose of highest score: every pose scores at most the
    reported score; a reported letter is a pose reaching it above 0.6; a
    maximum below 0.6 gives null; a maximum above 0.6 gives a letter.
    This holds for both [VectorEngine] variants. *)
Theorem C2_bestMatch_argmax_threshold (landmarks : list Point3D)
  (Hlen : (21 <= List.length landmarks)%nat) :
  (let m := Hybrid.matchPose landmarks in
   (forall l p, In (l, p) Hybrid.CANONICAL_POSES ->
      Hybrid.poseScore landmarks p <= score m) /\
   (score m < 0.6 -> bestMatch m = None) /\
   (forall l, bestMatch m = Some l ->
      0.6 < score m /\ exists p, In (l, p) Hybrid.CANONICAL_POSES /\
                                 Hybrid.poseScore landmarks p = score m) /\
   (0.6 < score m -> exists l, bestMatch m = Some l)) /\
  (let m := Cosine.matchPose landmarks in
   (forall l p, In (l, p) Cosine.CANONICAL_POSES ->
      Cosine.poseScore landmarks p <= score m) /\
   (score m < 0.6 -> bestMatch m = None) /\
   (forall l, bestMatch m = Some l ->
      0.6 < score m /\ exists p, In (l, p) Cosine.CANONICAL_POSES /\
                                 Cosine.poseScore landmarks p = score m) /\
   (0.6 < score m -> exists l, bestMatch m = Some l)).
Proof.
  split; cbv zeta.
  - rewrite (Hybrid_matchPose_eq _ Hlen). apply bestMatch_of_select_best.
  - rewrite (Cosine_matchPose_eq _ Hlen). apply bestMatch_of_select_best.
Qed.

Lemma C2_bestMatch_argmax_threshold_witness :
  (21 <= List.length sample_hand)%nat /\
  (score (Hybrid.matchPose sample_hand) < 0.6 ->
   bestMatch (Hybrid.matchPose sample_hand) = None).
Proof.
  assert (H : (21 <= List.length sample_hand)%nat) by (vm_compute; lia).
  split; [exact H|].
  exact (proj1 (proj2 (proj1 (C2_bestMatch_argmax_threshold sample_hand H)))).
Defined.

(** C5: curl hysteresis. Once a finger is Extended it stays Extended while
    its PIP angle exceeds 140 degrees, while entering Extended needs more than
    155 degrees; with entry threshold 1.3 and exit threshold 1.1 the readings
    [1.35; 1.2; 1.35] keep the finger Extended throughout (and the readings
    [160; 150; 160] do so with the source's own thresholds). The thumb's Over
    and Under states are sticky in the same way. *)
Theorem C5_finger_hysteresis :
  (forall a t m, getFingerState Extended a t m = Extended <-> 140 < a) /\
  (forall s a t m, s <> Extended ->
     (getFingerState s a t m = Extended <-> 155 < a)) /\
  (forall st t m,
     finger_run (finger_decide 1.3 1.1) st [(1.35, t, m); (1.2, t, m); (1.35, t, m)]
     = [Extended; Extended; Extended]) /\
  (forall st t m,
     finger_run getFingerState st [(160, t, m); (150, t, m); (160, t, m)]
     = [Extended; Extended; Extended]) /\
  (forall s zd ps dr di ang, s <> TOver ->
     getThumbState s zd ps dr di ang = TOver ->
     getThumbState TOver zd ps dr di ang = TOver) /\
  (forall s zd ps dr di ang, s <> TUnder ->
     getThumbState s zd ps dr di ang = TUnder ->
     getThumbState TUnder zd ps dr di ang = TUnder).
Proof.
  unfold getFingerState, finger_decide, getThumbState, ltb, gtb.
  split; [|split; [|split; [|split; [|split]]]].
  - intros a t m. simpl. destruct (Rlt_dec 140 a) as [H|H].
    + split; auto.
    + split; [|lra]. destruct (Rlt_dec (m * 1.1) t); discriminate.
  - intros s a t m Hs.
    replace (FingerState_eqb s Extended) with false
      by (destruct s; [congruence|reflexivity|reflexivity]).
    destruct (Rlt_dec 155 a) as [H|H].
    + split; auto.
    + split; [|lra]. destruct (Rlt_dec (m * 1.1) t); discriminate.
  - intros st t m. destruct st; decide_reals; try reflexivity; lra.
  - intros st t m. destruct st; decide_reals; try reflexivity; lra.
  - intros s zd ps dr di ang Hs.
    replace (match s with TOver => true | _ => false end) with false
      by (destruct s; congruence).
    destruct (Rlt_dec dr (di * 1.3)), (Rlt_dec dr (ps * 0.9)); simpl;
      try (intros H; repeat (destruct (Rlt_dec _ _)); discriminate).
    destruct (Rlt_dec zd (-0.01)) as [Hz|Hz];
      [|intros H; repeat (destruct (Rlt_dec _ _)); discriminate].
    intros _. destruct (Rlt_dec zd 0.02); [reflexivity|lra].
  - intros s zd ps dr di ang Hs.
    replace (match s with TUnder => true | _ => false end) with false
      by (destruct s; congruence).
    simpl.
    destruct (Rlt_dec dr (di * 1.3)), (Rlt_dec dr (ps * 0.9)); simpl;
      destruct (Rlt_dec zd (if match s with TOver => true | _ => false end
                              then 0.02 else -0.01)) as [Ho|Ho];
      destruct (Rlt_dec zd (-0.01)) as [Ho'|Ho'];
      try (intros H; discriminate H);
      try (destruct s; simpl in Ho; lra);
      (destruct (Rlt_dec di (ps * 0.6)); simpl;
       [|intros H; repeat (destruct (Rlt_dec _ _)); discriminate]);
      (destruct (Rlt_dec 0.02 zd) as [Hu|Hu];
       [intros _; destruct (Rlt_dec (-0.01) zd); [reflexivity|lra]
       |intros H; repeat (destruct (Rlt_dec _ _)); discriminate]).
Qed.

Lemma C5_finger_hysteresis_witness :
  Closed <> Extended /\ getFingerState Closed 150 0 0 <> Extended.
Proof.
  assert (H : Closed <> Extended) by discriminate.
  split; [exact H|].
  intros E. apply (proj1 (proj2 C5_finger_hysteresis) Closed 150 0 0 H) in E.
  lra.
Defined.

Open Scope Q_scope.

(** C4: [useStablePrediction] enters a raw label into its window only when it
    differs from the previous frame's label (the effect depends on
    [rawPrediction]), so on the frames [A; B; B; B; B] with window 5 and
    consensus 0.6 the window is [A; B] and the stable label stays A, whereas
    entering every frame (B at 4/5) would give B. The window
    [A; A; A; A; B; A; A; A] with consensus 0.6 does report A. *)
Theorem C4_window_skips_repeated_frames :
  let A := Some "A"%string in
  let B := Some "B"%string in
  Stable.buffer (Stable.run 5 (6 # 10) [A; B; B; B; B]) = [A; B] /\
  Stable.stablePrediction (Stable.run 5 (6 # 10) [A; B; B; B; B]) = A /\
  Stable.stablePrediction (Stable.run_every_frame 5 (6 # 10) [A; B; B; B; B]) = B /\
  Stable.stablePrediction (Stable.run 8 (6 # 10) [A; A; A; A; B; A; A; A]) = A /\
  Stable.stablePrediction (Stable.run 5 (6 # 10) [A; A; A; A; B; A; A; A]) = A.
Proof. vm_compute. repeat split. Qed.






Close Scope Q_scope.

(** ** Invariance of the matchers under moving the hand *)

Lemma point_ext (u v : Point3D) : x u = x v -> y u = y v -> z u = z v -> u = v.
Proof. destruct u, v; simpl; intros -> -> ->; reflexivity. Qed.

Lemma cross_scale_r (k : R) (a b : Point3D) :
  cross a (scale k b) = scale k (cross a b).
Proof. apply point_ext; unfold cross, scale; simpl; ring. Qed.

Lemma dist_magnitude (a b : Point3D) : dist a b = magnitude (sub a b).
Proof. reflexivity. Qed.

Lemma magnitude_scale (s : R) (v : Point3D) :
  0 <= s -> magnitude (scale s v) = s * magnitude v.
Proof.
  intros Hs. rewrite !magnitude_sq, dot_scale_l, dot_scale_r, <- Rmult_assoc.
  rewrite sqrt_mult_alt by (apply Rmult_le_pos; exact Hs).
  rewrite sqrt_square by exact Hs. reflexivity.
Qed.

Lemma normalize_scale (s : R) (v : Point3D) :
  0 < s -> normalize (scale s v) = normalize v.
Proof.
  intros Hs. destruct (nonzero_dec v) as [Hn|Hn].
  - pose proof (magnitude_pos v Hn) as Hm.
    rewrite (normalize_nonzero (scale s v)) by (apply scale_nonzero; [lra|exact Hn]).
    rewrite (normalize_nonzero v Hn), magnitude_scale by lra.
    apply point_ext; unfold scale; simpl; field; lra.
  - apply not_nonzero_iff in Hn. destruct Hn as [E1 [E2 E3]].
    assert (Hz : ~ nonzero (scale s v))
      by (apply not_nonzero_iff; unfold scale; simpl; rewrite E1, E2, E3; lra).
    rewrite (normalize_zero_vec _ Hz), normalize_zero_vec
      by (apply not_nonzero_iff; tauto).
    apply point_ext; unfold scale; simpl; rewrite ?E1, ?E2, ?E3; ring.
Qed.

Lemma lm_map (f : Point3D -> Point3D) (l : list Point3D) (i : nat) :
  (i < List.length l)%nat -> lm (map f l) i = f (lm l i).
Proof.
  intros Hi. unfold lm.
  rewrite (nth_indep (map f l) zero3 (f zero3)) by (rewrite length_map; exact Hi).
  apply map_nth.
Qed.

Lemma gtb_scale (k a b c : R) : 0 < k -> gtb (k * a) (k * b * c) = gtb a (b * c).
Proof.
  intros Hk. unfold gtb.
  destruct (Rlt_dec (k * b * c) (k * a)), (Rlt_dec (b * c) a); try reflexivity;
    exfalso; nra.
Qed.

Lemma ltb_scale (k a b c : R) : 0 < k -> ltb (k * a) (k * b * c) = ltb a (b * c).
Proof.
  intros Hk. unfold ltb.
  destruct (Rlt_dec (k * a) (k * b * c)), (Rlt_dec a (b * c)); try reflexivity;
    exfalso; nra.
Qed.

Section Motion.

Variables qa qb qc qd k : R.
Variable t : Point3D.
Hypothesis Hq : qa * qa + qb * qb + qc * qc + qd * qd = 1.
Hypothesis Hk : 0 < k.

Local Abbreviation rotq := (rot qa qb qc qd).
Local Abbreviation moveq := (move qa qb qc qd k t).

Lemma rot_dot (u v : Point3D) : dot (rotq u) (rotq v) = dot u v.
Proof.
  transitivity ((qa * qa + qb * qb + qc * qc + qd * qd)
                * (qa * qa + qb * qb + qc * qc + qd * qd) * dot u v).
  - unfold dot, rot; simpl; ring.
  - rewrite Hq; ring.
Qed.

Lemma rot_cross (u v : Point3D) : cross (rotq u) (rotq v) = rotq (cross u v).
Proof.
  apply point_ext; unfold cross, rot; simpl;
    match goal with
    | |- ?L = ?Rr =>
        transitivity ((qa * qa + qb * qb + qc * qc + qd * qd) * Rr);
        [ring | rewrite Hq; ring]
    end.
Qed.

Lemma rot_scale (s : R) (v : Point3D) : rotq (scale s v) = scale s (rotq v).
Proof. apply point_ext; unfold rot, scale; simpl; ring. Qed.

Lemma rot_magnitude (v : Point3D) : magnitude (rotq v) = magnitude v.
Proof. rewrite !magnitude_sq, rot_dot. reflexivity. Qed.

Lemma rot_normalize (v : Point3D) : normalize (rotq v) = rotq (normalize v).
Proof.
  unfold normalize. rewrite rot_magnitude. cbv zeta.
  assert (Hm : (if Req_EM_T (magnitude v) 0 then 1 else magnitude v) <> 0)
    by (destruct (Req_EM_T (magnitude v) 0); lra).
  revert Hm. generalize (if Req_EM_T (magnitude v) 0 then 1 else magnitude v).
  intros m Hm. apply point_ext; unfold rot; simpl; field; exact Hm.
Qed.

Lemma sub_move (p q : Point3D) : sub (moveq p) (moveq q) = scale k (rotq (sub p q)).
Proof. apply point_ext; unfold sub, move, add, scale, rot; simpl; ring. Qed.

Lemma dist_move (p q : Point3D) : dist (moveq p) (moveq q) = k * dist p q.
Proof.
  rewrite !dist_magnitude, sub_move, magnitude_scale by lra.
  rewrite rot_magnitude. reflexivity.
Qed.

Lemma normalize_sub_move (p q : Point3D) :
  normalize (sub (moveq p) (moveq q)) = rotq (normalize (sub p q)).
Proof. rewrite sub_move, normalize_scale by exact Hk. apply rot_normalize. Qed.

Lemma project_rot (b : Basis) (n : Point3D) :
  project (rotB qa qb qc qd b) (rotq n) = project b n.
Proof. unfold project, rotB; simpl. rewrite !rot_dot. reflexivity. Qed.

Lemma Hybrid_basis_move (l : list Point3D) :
  (21 <= List.length l)%nat ->
  computeHandBasis (map moveq l) = rotB qa qb qc qd (computeHandBasis l).
Proof.
  intros Hl. unfold computeHandBasis. cbv zeta.
  rewrite !lm_map by lia.
  rewrite normalize_sub_move, sub_move, cross_scale_r, rot_cross,
    normalize_scale by exact Hk.
  rewrite rot_normalize, rot_cross, rot_normalize. reflexivity.
Qed.

Lemma Cosine_basis_move (l : list Point3D) :
  (21 <= List.length l)%nat ->
  Cosine.computeHandBasis (map moveq l)
  = rotB qa qb qc qd (Cosine.computeHandBasis l).
Proof.
  intros Hl. unfold Cosine.computeHandBasis. cbv zeta.
  rewrite !lm_map by lia.
  rewrite normalize_sub_move, !sub_move, cross_scale_l, cross_scale_r,
    rot_cross, !normalize_scale by exact Hk.
  rewrite rot_normalize, rot_cross, rot_normalize, rot_cross. reflexivity.
Qed.

Lemma features_move (l : list Point3D) (b : Basis) :
  (21 <= List.length l)%nat ->
  extractFeatures (map moveq l) (rotB qa qb qc qd b) = extractFeatures l b.
Proof.
  intros Hl. unfold extractFeatures, FINGER_VECTORS. cbn [map].
  rewrite !lm_map by lia. rewrite !normalize_sub_move, !project_rot.
  reflexivity.
Qed.

Lemma calculateCurls_move (l : list Point3D) :
  (21 <= List.length l)%nat ->
  Hybrid.calculateCurls (map moveq l) = Hybrid.calculateCurls l.
Proof.
  intros Hl. unfold Hybrid.calculateCurls, Hybrid.FINGER_CURL_INDICES.
  cbv zeta. cbn [map]. rewrite !lm_map by lia. rewrite !dist_move.
  rewrite !gtb_scale by exact Hk. reflexivity.
Qed.

Lemma getExtensions_move (l : list Point3D) :
  (21 <= List.length l)%nat ->
  GestureLogic.getExtensions (map moveq l) = GestureLogic.getExtensions l.
Proof.
  intros Hl. unfold GestureLogic.getExtensions. cbv zeta.
  rewrite !lm_map by lia. rewrite !dist_move.
  rewrite !gtb_scale by exact Hk. reflexivity.
Qed.

Lemma isThumbIndexTouching_move (l : list Point3D) :
  (21 <= List.length l)%nat ->
  GestureLogic.isThumbIndexTouching (map moveq l)
  = GestureLogic.isThumbIndexTouching l.
Proof.
  intros Hl. unfold GestureLogic.isThumbIndexTouching.
  rewrite !lm_map by lia. rewrite !dist_move.
  apply ltb_scale, Hk.
Qed.

Lemma getFingerSpread_move (l : list Point3D) :
  (21 <= List.length l)%nat ->
  GestureLogic.getFingerSpread (map moveq l) = GestureLogic.getFingerSpread l.
Proof.
  intros Hl. unfold GestureLogic.getFingerSpread. cbv zeta.
  rewrite !lm_map by lia. rewrite !dist_move.
  destruct (Rlt_dec 0 (k * dist (lm l 5) (lm l 9))),
           (Rlt_dec 0 (dist (lm l 5) (lm l 9))); try (exfalso; nra).
  - field. lra.
  - reflexivity.
Qed.

End Motion.

(** X1: the hybrid [VectorEngine.matchPose] gives the same letter and score when
    every landmark is rotated by the same rotation, scaled by the same
    positive factor and translated by the same vector. *)
Theorem X1_hybrid_matchPose_move_invariant (qa qb qc qd k : R) (t : Point3D) (l : list Point3D) :
  qa * qa + qb * qb + qc * qc + qd * qd = 1 -> 0 < k ->
  Hybrid.matchPose (map (move qa qb qc qd k t) l) = Hybrid.matchPose l.
Proof.
  intros Hq Hk. unfold Hybrid.matchPose. rewrite length_map.
  destruct (Nat.ltb_spec (List.length l) 21) as [Hs|Hl]; [reflexivity|]. cbv zeta.
  rewrite Hybrid_basis_move, features_move, calculateCurls_move by assumption.
  reflexivity.
Qed.

Lemma X1_hybrid_matchPose_move_invariant_witness :
  0.5 * 0.5 + 0.5 * 0.5 + 0.5 * 0.5 + 0.5 * 0.5 = 1 /\ 0 < 2 /\
  Hybrid.matchPose (map (move 0.5 0.5 0.5 0.5 2 (P 1 2 3)) sample_hand)
  = Hybrid.matchPose sample_hand.
Proof.
  assert (H1 : 0.5 * 0.5 + 0.5 * 0.5 + 0.5 * 0.5 + 0.5 * 0.5 = 1) by lra.
  assert (H2 : 0 < 2) by lra.
  split; [exact H1|split; [exact H2|]].
  exact (X1_hybrid_matchPose_move_invariant 0.5 0.5 0.5 0.5 2 (P 1 2 3) sample_hand H1 H2).
Defined.

(** X2: the same invariance for the cosine [VectorEngine.matchPose] of the
    earlier engine. *)
Theorem X2_cosine_matchPose_move_invariant (qa qb qc qd k : R) (t : Point3D) (l : list Point3D) :
  qa * qa + qb * qb + qc * qc + qd * qd = 1 -> 0 < k ->
  Cosine.matchPose (map (move qa qb qc qd k t) l) = Cosine.matchPose l.
Proof.
  intros Hq Hk. unfold Cosine.matchPose. rewrite length_map.
  destruct (Nat.ltb_spec (List.length l) 21) as [Hs|Hl]; [reflexivity|]. cbv zeta.
  rewrite Cosine_basis_move, features_move by assumption.
  reflexivity.
Qed.

Lemma X2_cosine_matchPose_move_invariant_witness :
  0.5 * 0.5 + 0.5 * 0.5 + 0.5 * 0.5 + 0.5 * 0.5 = 1 /\ 0 < 2 /\
  Cosine.matchPose (map (move 0.5 0.5 0.5 0.5 2 (P 1 2 3)) sample_hand)
  = Cosine.matchPose sample_hand.
Proof.
  assert (H1 : 0.5 * 0.5 + 0.5 * 0.5 + 0.5 * 0.5 + 0.5 * 0.5 = 1) by lra.
  assert (H2 : 0 < 2) by lra.
  split; [exact H1|split; [exact H2|]].
  exact (X2_cosine_matchPose_move_invariant 0.5 0.5 0.5 0.5 2 (P 1 2 3) sample_hand H1 H2).
Defined.

(** X3: [GestureLogic.analyze] gives the same letter and score when every
    landmark is rotated by the same rotation, scaled by the same positive
    factor and translated by the same vector: it only compares distance
    ratios. *)
Theorem X3_analyze_move_invariant (qa qb qc qd k : R) (t : Point3D) (l : list Point3D) :
  qa * qa + qb * qb + qc * qc + qd * qd = 1 -> 0 < k ->
  GestureLogic.analyze (map (move qa qb qc qd k t) l) = GestureLogic.analyze l.
Proof.
  intros Hq Hk. unfold GestureLogic.analyze. rewrite length_map.
  destruct (Nat.ltb_spec (List.length l) 21) as [Hs|Hl]; [reflexivity|]. cbv zeta.
  rewrite getExtensions_move, getFingerSpread_move, isThumbIndexTouching_move
    by assumption.
  reflexivity.
Qed.

Lemma X3_analyze_move_invariant_witness :
  0.5 * 0.5 + 0.5 * 0.5 + 0.5 * 0.5 + 0.5 * 0.5 = 1 /\ 0 < 2 /\
  GestureLogic.analyze (map (move 0.5 0.5 0.5 0.5 2 (P 1 2 3)) sample_hand)
  = GestureLogic.analyze sample_hand.
Proof.
  assert (H1 : 0.5 * 0.5 + 0.5 * 0.5 + 0.5 * 0.5 + 0.5 * 0.5 = 1) by lra.
  assert (H2 : 0 < 2) by lra.
  split; [exact H1|split; [exact H2|]].
  exact (X3_analyze_move_invariant 0.5 0.5 0.5 0.5 2 (P 1 2 3) sample_hand H1 H2).
Defined.

(** ** Target similarity of the two engines *)

Lemma Hybrid_lookup_In (key : string) (p : Hybrid.PoseDef) :
  In (key, p) Hybrid.CANONICAL_POSES -> lookup key Hybrid.CANONICAL_POSES = Some p.
Proof.
  intros H. simpl in H.
  repeat (destruct H as [E|H]; [injection E as <- <-; reflexivity|]).
  contradiction.
Qed.

Lemma Cosine_lookup_In (key : string) (p : list Point3D) :
  In (key, p) Cosine.CANONICAL_POSES -> lookup key Cosine.CANONICAL_POSES = Some p.
Proof.
  intros H. simpl in H.
  repeat (destruct H as [E|H]; [injection E as <- <-; reflexivity|]).
  contradiction.
Qed.

(** The cosine engine's basis: [z] and [x] normalized, [x] orthogonal to
    [z], [y = cross z x]; orthonormal, or zero where it degenerates. *)
Lemma cosine_project_norm_le (landmarks : list Point3D) (n : Point3D) :
  dot n n <= 1 ->
  dot (project (Cosine.computeHandBasis landmarks) n)
      (project (Cosine.computeHandBasis landmarks) n) <= 1.
Proof.
  intros Hn. rewrite dot_project. unfold Cosine.computeHandBasis; cbv zeta; simpl.
  set (y0 := normalize (sub (lm landmarks 9) (lm landmarks 0))).
  set (c := cross (sub (lm landmarks 5) (lm landmarks 0))
                  (sub (lm landmarks 17) (lm landmarks 0))).
  destruct (nonzero_dec c) as [Hc|Hc].
  - set (za := normalize c).
    assert (Hz : dot za za = 1) by (apply normalize_unit, Hc).
    destruct (nonzero_dec (cross y0 za)) as [Hxy|Hxy].
    + destruct (normalize_pos_scale _ Hxy) as [s [Hs Ex]].
      set (xa := normalize (cross y0 za)) in *.
      assert (Hx : dot xa xa = 1) by (apply normalize_unit, Hxy).
      assert (Hxz : dot xa za = 0) by (rewrite Ex, dot_scale_l, dot_cross_r; ring).
      assert (Hy : dot (cross za xa) (cross za xa) = 1).
      { rewrite dot_cross_cross, Hz, Hx, dot_comm, Hxz. ring. }
      assert (Hxy' : dot xa (cross za xa) = 0) by (rewrite dot_comm; apply dot_cross_r).
      assert (Hyz : dot (cross za xa) za = 0) by apply dot_cross_l.
      pose proof (bessel3 n _ _ _ Hx Hy Hz Hxy' Hxz Hyz). lra.
    + assert (Hx := normalize_not_nonzero _ Hxy).
      assert (Hy := cross_not_nonzero_r za _ Hx).
      rewrite (dot_not_nonzero_r n _ Hx), (dot_not_nonzero_r n _ Hy).
      pose proof (cauchy_schwarz n za) as Hcs. rewrite Hz in Hcs.
      pose proof (dot_self_nonneg n). lra.
  - assert (Hz := normalize_not_nonzero _ Hc).
    assert (Hx := normalize_not_nonzero _ (cross_not_nonzero_r y0 _ Hz)).
    assert (Hy := cross_not_nonzero_r (normalize c) _ Hx).
    rewrite (dot_not_nonzero_r n _ Hx), (dot_not_nonzero_r n _ Hy),
      (dot_not_nonzero_r n _ Hz). lra.
Qed.

Lemma cosine_features_norm_le (landmarks : list Point3D) (f : Point3D) :
  In f (extractFeatures landmarks (Cosine.computeHandBasis landmarks)) ->
  dot f f <= 1.
Proof.
  unfold extractFeatures. intros H. apply in_map_iff in H.
  destruct H as [[s e] [<- _]].
  apply cosine_project_norm_le, normalize_norm_le.
Qed.

Lemma cosine_poses_norm_le :
  Forall (fun e => Forall (fun t => dot t t <= 1) (snd e)
                   /\ List.length (snd e) = 5%nat)
         Cosine.CANONICAL_POSES.
Proof.
  unfold Cosine.CANONICAL_POSES.
  repeat apply Forall_cons; try apply Forall_nil;
    (split; [repeat apply Forall_cons; try apply Forall_nil|reflexivity]);
    unfold dot, P; simpl; lra.
Qed.

Lemma cosine_poseScore_bound (landmarks : list Point3D) (l : string)
    (p : list Point3D) :
  In (l, p) Cosine.CANONICAL_POSES -> -1 <= Cosine.poseScore landmarks p <= 1.
Proof.
  intros Hin. pose proof cosine_poses_norm_le as HF. rewrite Forall_forall in HF.
  destruct (HF (l, p) Hin) as [Hv Hl]; simpl in Hv, Hl.
  rewrite Forall_forall in Hv.
  unfold Cosine.poseScore, Cosine.calculateSimilarity.
  rewrite features_length, Hl. simpl Nat.eqb. cbv iota.
  assert (Hs := sum_dots_bound _ _ (cosine_features_norm_le landmarks) Hv
                  (eq_trans (features_length _ _) (eq_sym Hl))).
  rewrite features_length in Hs. simpl INR in *. split; unfold Rdiv; lra.
Qed.

(** X4: for a letter of the hybrid library, [calculateTargetSimilarity] lies
    between 0 and the score [matchPose] reports, which is at most 1; on a
    landmark list of 21 points or more it is the hybrid score of that pose
    (0 on a shorter list). *)
Theorem X4_hybrid_target_similarity (landmarks : list Point3D)
    (targetLetter : string) (pose : Hybrid.PoseDef) :
  In (targetLetter, pose) Hybrid.CANONICAL_POSES ->
  0 <= Hybrid.calculateTargetSimilarity landmarks targetLetter
    <= score (Hybrid.matchPose landmarks) /\
  score (Hybrid.matchPose landmarks) <= 1 /\
  ((21 <= List.length landmarks)%nat ->
   Hybrid.calculateTargetSimilarity landmarks targetLetter
   = Hybrid.poseScore landmarks pose).
Proof.
  intros Hin.
  pose proof (hybridScore_bound landmarks _ _ Hin) as Hb.
  unfold Hybrid.calculateTargetSimilarity.
  destruct (Nat.ltb_spec (List.length landmarks) 21) as [Hs|Hl].
  - unfold Hybrid.matchPose. rewrite (proj2 (Nat.ltb_lt _ _) Hs). simpl.
    split; [lra|split; [lra|intros; lia]].
  - rewrite (Hybrid_lookup_In _ _ Hin). cbv zeta.
    change (Hybrid.calculateCurlMatch (Hybrid.calculateCurls landmarks)
              (Hybrid.curls pose) * 0.4
            + Hybrid.calculateSimilarity
                (extractFeatures landmarks (computeHandBasis landmarks))
                (Hybrid.vectors pose) * 0.6)
      with (Hybrid.poseScore landmarks pose).
    rewrite Rmax_right by (unfold Hybrid.poseScore; lra).
    rewrite (Hybrid_matchPose_eq _ Hl).
    destruct (select_best_ge (Hybrid.poseScore landmarks) Hybrid.CANONICAL_POSES
                None (-1)) as [_ Hge].
    assert (Hall : forall l p, In (l, p) Hybrid.CANONICAL_POSES ->
                   0 <= Hybrid.poseScore landmarks p <= 1)
      by (intros l p; apply hybridScore_bound).
    pose proof (select_best_bound_start (Hybrid.poseScore landmarks)
                  Hybrid.CANONICAL_POSES None (-1) 0 1 Hall) as Hr.
    assert (Hne : Hybrid.CANONICAL_POSES <> []) by discriminate.
    specialize (Hr ltac:(lra) Hne). specialize (Hge _ _ Hin).
    unfold Hybrid.poseScore in *. split; [lra|split; [lra|reflexivity]].
Qed.

Lemma X4_hybrid_target_similarity_witness :
  In ("B"%string, {| Hybrid.curls := [false; true; true; true; true];
                     Hybrid.vectors := [P (-0.5) 0.3 0.5; P (-0.1) 0.9 0.2;
                                        P 0 0.95 0.2; P 0.1 0.9 0.2;
                                        P 0.2 0.85 0.2] |})
     Hybrid.CANONICAL_POSES /\
  0 <= Hybrid.calculateTargetSimilarity sample_hand "B"
    <= score (Hybrid.matchPose sample_hand).
Proof.
  assert (H : In ("B"%string, {| Hybrid.curls := [false; true; true; true; true];
                     Hybrid.vectors := [P (-0.5) 0.3 0.5; P (-0.1) 0.9 0.2;
                                        P 0 0.95 0.2; P 0.1 0.9 0.2;
                                        P 0.2 0.85 0.2] |})
                 Hybrid.CANONICAL_POSES) by (simpl; tauto).
  split; [exact H|].
  exact (proj1 (X4_hybrid_target_similarity sample_hand "B" _ H)).
Defined.

(** X5: for a letter of the cosine library, the cosine engine's
    [calculateTargetSimilarity] lies in [0,1] and never exceeds the score
    [matchPose] reports, clamped at 0; on 21 points or more it is that pose's
    average cosine clamped at 0 (0 on a shorter list). *)
Theorem X5_cosine_target_similarity (landmarks : list Point3D)
    (targetLetter : string) (pose : list Point3D) :
  In (targetLetter, pose) Cosine.CANONICAL_POSES ->
  0 <= Cosine.calculateTargetSimilarity landmarks targetLetter <= 1 /\
  Cosine.calculateTargetSimilarity landmarks targetLetter
    <= Rmax 0 (score (Cosine.matchPose landmarks)) /\
  ((21 <= List.length landmarks)%nat ->
   Cosine.calculateTargetSimilarity landmarks targetLetter
   = Rmax 0 (Cosine.poseScore landmarks pose)).
Proof.
  intros Hin.
  pose proof (cosine_poseScore_bound landmarks _ _ Hin) as Hb.
  unfold Cosine.calculateTargetSimilarity.
  destruct (Nat.ltb_spec (List.length landmarks) 21) as [Hs|Hl].
  - unfold Cosine.matchPose. rewrite (proj2 (Nat.ltb_lt _ _) Hs). simpl.
    rewrite Rmax_left by lra. split; [lra|split; [lra|intros; lia]].
  - rewrite (Cosine_lookup_In _ _ Hin). cbv zeta.
    change (Cosine.calculateSimilarity
              (extractFeatures landmarks (Cosine.computeHandBasis landmarks)) pose)
      with (Cosine.poseScore landmarks pose).
    rewrite (Cosine_matchPose_eq _ Hl).
    destruct (select_best_ge (Cosine.poseScore landmarks) Cosine.CANONICAL_POSES
                None (-1)) as [_ Hge].
    specialize (Hge _ _ Hin).
    split; [|split; [|reflexivity]].
    + split; [apply Rmax_l|]. apply Rmax_lub; lra.
    + apply Rmax_lub; [apply Rmax_l|].
      eapply Rle_trans; [exact Hge|apply Rmax_r].
Qed.

Lemma X5_cosine_target_similarity_witness :
  In ("O"%string, [P 0 (-0.1) 0.9; P 0 (-0.1) 0.9; P 0 (-0.1) 0.9;
                   P 0 (-0.1) 0.9; P 0 (-0.1) 0.9]) Cosine.CANONICAL_POSES /\
  0 <= Cosine.calculateTargetSimilarity neg_hand "O" <= 1.
Proof.
  assert (H : In ("O"%string, [P 0 (-0.1) 0.9; P 0 (-0.1) 0.9; P 0 (-0.1) 0.9;
                   P 0 (-0.1) 0.9; P 0 (-0.1) 0.9]) Cosine.CANONICAL_POSES)
    by (simpl; tauto).
  split; [exact H|].
  exact (proj1 (X5_cosine_target_similarity neg_hand "O" _ H)).
Defined.

(** ** The KNN feature vector *)

Section Features.

Local Abbreviation sumsq l := (fold_left (fun sum v => sum + v * v) l 0).

Lemma sumsq_acc (l : list R) (a : R) :
  fold_left (fun sum v => sum + v * v) l a = a + sumsq l.
Proof.
  revert a. induction l as [|v l IH]; intros a; simpl; [ring|].
  rewrite (IH (a + v * v)), (IH (0 + v * v)). ring.
Qed.

Lemma sumsq_cons (v : R) (l : list R) : sumsq (v :: l) = v * v + sumsq l.
Proof. simpl. rewrite sumsq_acc. ring. Qed.

Lemma sumsq_nonneg (l : list R) : 0 <= sumsq l.
Proof.
  induction l as [|v l IH]; [simpl; lra|]. rewrite sumsq_cons. nra.
Qed.

Lemma sumsq_zero (l : list R) : sumsq l = 0 -> forall v, In v l -> v = 0.
Proof.
  induction l as [|w l IH]; intros H v Hin; [destruct Hin|].
  rewrite sumsq_cons in H. pose proof (sumsq_nonneg l).
  assert (Hw : w * w = 0) by nra.
  destruct Hin as [<-|Hin]; [nra|]. apply IH; [lra|exact Hin].
Qed.

Lemma sumsq_nonzero (l : list R) : sumsq l <> 0 -> exists v, In v l /\ v <> 0.
Proof.
  induction l as [|w l IH]; intros H; [simpl in H; lra|].
  rewrite sumsq_cons in H. destruct (Req_EM_T w 0) as [Hw|Hw].
  - subst w. destruct IH as [v [Hin Hv]]; [lra|]. exists v. split; [right|]; assumption.
  - exists w. split; [left; reflexivity|exact Hw].
Qed.

Lemma sumsq_map_div (l : list R) (m : R) :
  m <> 0 -> sumsq (map (fun v => v / m) l) = sumsq l / (m * m).
Proof.
  intros Hm. induction l as [|v l IH]; [simpl; field; exact Hm|].
  simpl map. rewrite !sumsq_cons, IH. field. exact Hm.
Qed.

Lemma sumsq_map_scale (l : list R) (k : R) :
  sumsq (map (fun v => k * v) l) = k * k * sumsq l.
Proof.
  induction l as [|v l IH]; [simpl; ring|].
  simpl map. rewrite !sumsq_cons, IH. ring.
Qed.

Lemma wrist_features_zero (landmarks : list Point3D) :
  (forall v, In v (flat_map (fun i =>
                       [x (lm landmarks i) - x (lm landmarks 0);
                        y (lm landmarks i) - y (lm landmarks 0);
                        z (lm landmarks i) - z (lm landmarks 0)]) (seq 0 21))
             -> v = 0)
  <-> (forall i, (i < 21)%nat -> lm landmarks i = lm landmarks 0).
Proof.
  split.
  - intros H i Hi.
    assert (Hs : In i (seq 0 21)) by (apply in_seq; lia).
    assert (Hc : forall v, In v [x (lm landmarks i) - x (lm landmarks 0);
                                 y (lm landmarks i) - y (lm landmarks 0);
                                 z (lm landmarks i) - z (lm landmarks 0)] -> v = 0).
    { intros v Hv. apply H. apply in_flat_map. exists i. split; assumption. }
    apply point_ext.
    + assert (E := Hc _ (or_introl eq_refl)). lra.
    + assert (E := Hc _ (or_intror (or_introl eq_refl))). lra.
    + assert (E := Hc _ (or_intror (or_intror (or_introl eq_refl)))). lra.
  - intros H v Hv. apply in_flat_map in Hv. destruct Hv as [i [Hs Hv]].
    apply in_seq in Hs. rewrite (H i ltac:(lia)) in Hv.
    destruct Hv as [<-|[<-|[<-|[]]]]; ring.
Qed.

Lemma features_scale_translate (k : R) (t : Point3D) (landmarks : list Point3D)
    (idx : list nat) :
  (forall i, In i idx -> (i < List.length landmarks)%nat) ->
  (0 < List.length landmarks)%nat ->
  flat_map (fun i =>
      [x (lm (map (fun p => add (scale k p) t) landmarks) i)
       - x (lm (map (fun p => add (scale k p) t) landmarks) 0);
       y (lm (map (fun p => add (scale k p) t) landmarks) i)
       - y (lm (map (fun p => add (scale k p) t) landmarks) 0);
       z (lm (map (fun p => add (scale k p) t) landmarks) i)
       - z (lm (map (fun p => add (scale k p) t) landmarks) 0)]) idx
  = map (fun v => k * v)
      (flat_map (fun i =>
         [x (lm landmarks i) - x (lm landmarks 0);
          y (lm landmarks i) - y (lm landmarks 0);
          z (lm landmarks i) - z (lm landmarks 0)]) idx).
Proof.
  intros Hidx H0. induction idx as [|i idx IH]; [reflexivity|].
  cbn [flat_map app map].
  rewrite IH by (intros j Hj; apply Hidx; right; exact Hj).
  rewrite !lm_map by first [exact H0 | apply Hidx; left; reflexivity].
  simpl. f_equal; [|f_equal; [|f_equal]]; ring.
Qed.

Lemma normalize_list_scale (k : R) (f : list R) :
  0 < k ->
  map (fun v => v / (if Req_EM_T (sqrt (sumsq (map (fun v => k * v) f))) 0 then 1
                     else sqrt (sumsq (map (fun v => k * v) f))))
      (map (fun v => k * v) f)
  = map (fun v => v / (if Req_EM_T (sqrt (sumsq f)) 0 then 1 else sqrt (sumsq f))) f.
Proof.
  intros Hk. rewrite sumsq_map_scale.
  pose proof (sumsq_nonneg f) as HS.
  rewrite sqrt_mult_alt by nra. rewrite sqrt_square by lra.
  destruct (Req_EM_T (sqrt (sumsq f)) 0) as [H0|H0].
  - apply sqrt_eq_0 in H0; [|exact HS].
    assert (Hz := sumsq_zero f H0).
    destruct (Req_EM_T (k * sqrt (sumsq f)) 0) as [_|Hn];
      [|rewrite H0, sqrt_0 in Hn; lra].
    rewrite map_map. apply map_ext_in. intros v Hv. rewrite (Hz v Hv). field.
  - destruct (Req_EM_T (k * sqrt (sumsq f)) 0) as [Hn|_]; [nra|].
    rewrite map_map. apply map_ext. intros v. field. split; lra.
Qed.

End Features.

(** X6: [landmarksToFeatures] gives 63 numbers. Their squares sum to 1 when
    some of the 21 points differs from the wrist; when all 21 points equal the
    wrist, every feature is 0 (the [|| 1] fallback). *)
Theorem X6_landmarksToFeatures_unit_norm (landmarks : list Point3D) :
  List.length (landmarksToFeatures landmarks) = 63%nat /\
  ((fold_left (fun sum v => sum + v * v) (landmarksToFeatures landmarks) 0 = 1 /\
    exists i, (i < 21)%nat /\ lm landmarks i <> lm landmarks 0) \/
   ((forall i, (i < 21)%nat -> lm landmarks i = lm landmarks 0) /\
    forall v, In v (landmarksToFeatures landmarks) -> v = 0)).
Proof.
  unfold landmarksToFeatures; cbv zeta. split; [rewrite length_map; reflexivity|].
  set (F := flat_map _ (seq 0 21)).
  pose proof (wrist_features_zero landmarks) as Hw. fold F in Hw.
  pose proof (sumsq_nonneg F) as HS.
  destruct (Req_EM_T (sqrt (fold_left (fun sum v => sum + v * v) F 0)) 0) as [H0|H0].
  - right. apply sqrt_eq_0 in H0; [|exact HS].
    assert (Hz := sumsq_zero F H0).
    split; [apply Hw, Hz|].
    intros v Hv. apply in_map_iff in Hv. destruct Hv as [u [<- Hu]].
    rewrite (Hz u Hu). field.
  - left. split.
    + rewrite sumsq_map_div by exact H0. rewrite sqrt_sqrt by exact HS.
      field. intros E. apply H0. rewrite E. apply sqrt_0.
    + assert (HS0 : fold_left (fun sum v => sum + v * v) F 0 <> 0)
        by (intros E; apply H0; rewrite E; apply sqrt_0).
      destruct (sumsq_nonzero F HS0) as [v [Hv Hv0]].
      apply in_flat_map in Hv. destruct Hv as [i [Hs Hv]].
      apply in_seq in Hs. exists i. split; [lia|].
      intros E. rewrite E in Hv.
      destruct Hv as [<-|[<-|[<-|[]]]]; apply Hv0; ring.
Qed.

(** X7: on a landmark set of 21 points or more, [landmarksToFeatures] does
    not change when every point is scaled by the same positive factor and
    translated by the same vector. *)
Theorem X7_landmarksToFeatures_scale_translate (k : R) (t : Point3D)
    (landmarks : list Point3D) :
  0 < k -> (21 <= List.length landmarks)%nat ->
  landmarksToFeatures (map (fun p => add (scale k p) t) landmarks)
  = landmarksToFeatures landmarks.
Proof.
  intros Hk Hl. unfold landmarksToFeatures; cbv zeta.
  rewrite features_scale_translate
    by (try (intros i Hi; apply in_seq in Hi); lia).
  apply normalize_list_scale, Hk.
Qed.

Lemma X7_landmarksToFeatures_scale_translate_witness :
  landmarksToFeatures (map (fun p => add (scale 2 p) (P 1 2 3)) sample_hand)
  = landmarksToFeatures sample_hand.
Proof.
  apply X7_landmarksToFeatures_scale_translate; [lra|].
  unfold sample_hand. simpl. lia.
Defined.

(** ** The landmark engine and the hook's finger states *)

Lemma lerpLandmarks_toward (l raw : list Point3D) (a : R) :
  List.length raw = List.length l ->
  Engine.lerpLandmarks
    (map (fun '(p, c) => add c (scale a (sub p c))) (combine l raw)) raw
    Engine.alpha
  = Some (map (fun '(p, c) => add c (scale (0.35 * a) (sub p c)))
              (combine l raw)).
Proof.
  revert raw. induction l as [|p l IH]; intros [|c raw] H;
    try discriminate; [reflexivity|].
  simpl in H. injection H as H. simpl. rewrite IH by exact H.
  f_equal. f_equal. apply point_ext; unfold Engine.lerp, Engine.alpha, add, scale, sub; simpl; unfold Q2R; simpl; field.
Qed.

Lemma combine_toward_1 (l raw : list Point3D) :
  List.length raw = List.length l ->
  map (fun '(p, c) => add c (scale 1 (sub p c))) (combine l raw) = l.
Proof.
  revert raw. induction l as [|p l IH]; intros [|c raw] H;
    try discriminate; [reflexivity|].
  simpl in H. injection H as H. simpl. rewrite IH by exact H.
  f_equal. apply point_ext; simpl; ring.
Qed.

Lemma magnitude_sub_self (a : Point3D) : magnitude (sub a a) = 0.
Proof.
  unfold magnitude, sub; simpl. rewrite <- sqrt_0. f_equal. ring.
Qed.

Lemma calculateAngle_degenerate (a b c : Point3D) :
  b = a \/ b = c -> Engine.calculateAngle a b c = None.
Proof.
  intros Hb. unfold Engine.calculateAngle; cbv zeta.
  assert (H : magnitude (sub a b) * magnitude (sub c b) = 0).
  { destruct Hb as [<-|<-]; rewrite magnitude_sub_self; ring. }
  destruct (Req_EM_T _ 0) as [_|Hn]; [reflexivity|contradiction].
Qed.

Lemma getThumbState_not_closed (ts : ThumbState)
    (zDiff palmSize distToRing distToIndex thumbAngle : R) :
  getThumbState ts zDiff palmSize distToRing distToIndex thumbAngle <> TClosed.
Proof.
  unfold getThumbState; cbv zeta.
  repeat match goal with |- context [if ?b then _ else _] => destruct b end;
    discriminate.
Qed.

Lemma getFingerState_world (s : Engine.State) (f : Engine.Finger) :
  Engine.worldLandmarks (snd (Engine.getFingerState s f))
  = Engine.worldLandmarks s.
Proof.
  unfold Engine.getFingerState. destruct (Engine.worldLandmarks s) eqn:E;
    [destruct (Engine.indices f) as [[mcp pip] tip]; simpl; congruence|simpl; congruence].
Qed.

Lemma getThumbState_world (s : Engine.State) :
  Engine.worldLandmarks (snd (Engine.getThumbState s))
  = Engine.worldLandmarks s.
Proof.
  unfold Engine.getThumbState. destruct (Engine.worldLandmarks s) eqn:E;
    simpl; congruence.
Qed.

Lemma semantic_vocab (s : Engine.State) (v : string) :
  In v (Engine.getSemanticStates s) -> In v semanticVocab.
Proof.
  unfold Engine.getSemanticStates. destruct (Engine.worldLandmarks s); [|simpl; tauto].
  cbv zeta.
  repeat match goal with |- context [if ?b then _ else _] => destruct b end;
    simpl; intuition (subst; simpl; tauto).
Qed.

Lemma semantic_together_spread (s : Engine.State) :
  ~ (In "Index/Middle Together"%string (Engine.getSemanticStates s)
     /\ In "Index/Middle Spread"%string (Engine.getSemanticStates s)) /\
  (In "Index/Middle Crossed"%string (Engine.getSemanticStates s)
   -> In "Index/Middle Together"%string (Engine.getSemanticStates s)).
Proof.
  unfold Engine.getSemanticStates. destruct (Engine.worldLandmarks s); [|simpl; tauto].
  cbv zeta.
  repeat match goal with |- context [if ?b then _ else _] => destruct b end;
    simpl; intuition discriminate.
Qed.

Lemma fingers_none (s : Engine.State) :
  Engine.worldLandmarks s = None ->
  fold_left pushFinger [Engine.Index; Engine.Middle; Engine.Ring; Engine.Pinky]
    ([], s) = ([], s).
Proof.
  destruct s as [lmk w fs ts]. simpl. intros ->. reflexivity.
Qed.

Lemma fingers_part (s : Engine.State) :
  exists a s4,
    fold_left pushFinger [Engine.Index; Engine.Middle; Engine.Ring; Engine.Pinky]
      ([], s) = (a, s4) /\
    Engine.worldLandmarks s4 = Engine.worldLandmarks s /\
    (forall v, In v a -> In v fingerVocab) /\
    (count_occ string_dec a "Index Extended"%string <= 1)%nat.
Proof.
  simpl fold_left. unfold pushFinger.
  destruct (Engine.getFingerState s Engine.Index) as [st1 s1] eqn:E1.
  cbn beta iota.
  destruct (Engine.getFingerState s1 Engine.Middle) as [st2 s2] eqn:E2.
  cbn beta iota.
  destruct (Engine.getFingerState s2 Engine.Ring) as [st3 s3] eqn:E3.
  cbn beta iota.
  destruct (Engine.getFingerState s3 Engine.Pinky) as [st4 s4] eqn:E4.
  cbn beta iota.
  assert (W1 := getFingerState_world s Engine.Index). rewrite E1 in W1.
  assert (W2 := getFingerState_world s1 Engine.Middle). rewrite E2 in W2.
  assert (W3 := getFingerState_world s2 Engine.Ring). rewrite E3 in W3.
  assert (W4 := getFingerState_world s3 Engine.Pinky). rewrite E4 in W4.
  simpl in W1, W2, W3, W4.
  eexists _, s4. split; [reflexivity|]. split; [congruence|].
  destruct st1, st2, st3, st4; simpl;
    (split; [intros v Hv; unfold fingerVocab; simpl in Hv |- *;
             intuition (subst; simpl; tauto)|lia]).
Qed.

Lemma removeFirst_notin (s : string) (l : list string) :
  (count_occ string_dec l s <= 1)%nat -> ~ In s (removeFirst s l).
Proof.
  induction l as [|h t IH]; intros Hc; [simpl; tauto|].
  simpl. destruct (String.eqb_spec h s) as [->|Hne].
  - simpl in Hc. destruct (string_dec s s) as [_|]; [|congruence].
    intros Hin. apply (count_occ_In string_dec) in Hin. lia.
  - simpl in Hc. destruct (string_dec h s) as [|_]; [congruence|].
    intros [E|Hin]; [congruence|]. exact (IH Hc Hin).
Qed.

Lemma removeFirst_keep (s v : string) (l : list string) :
  In v l -> v <> s -> In v (removeFirst s l).
Proof.
  induction l as [|h t IH]; intros Hin Hne; [destruct Hin|].
  simpl. destruct (String.eqb_spec h s) as [->|Hhs].
  - destruct Hin as [E|Hin]; [congruence|exact Hin].
  - destruct Hin as [E|Hin]; [left; exact E|right; exact (IH Hin Hne)].
Qed.

Lemma removeFirst_sub (s v : string) (l : list string) :
  In v (removeFirst s l) -> In v l.
Proof.
  induction l as [|h t IH]; [simpl; tauto|].
  simpl. destruct (String.eqb h s); [right; exact H|].
  intros [E|Hin]; [left; exact E|right; exact (IH Hin)].
Qed.

(** The steps of [detectFingerStates] on a frame with a hand. *)
Lemma detectFingerStates_shape (raw : list Point3D) (s : Engine.State) :
  exists a t sem,
    (forall v, In v a -> In v fingerVocab) /\
    (count_occ string_dec a "Index Extended"%string <= 1)%nat /\
    (Engine.worldLandmarks s = None -> a = [] /\ t = TClosed /\ sem = []) /\
    (Engine.worldLandmarks s <> None -> t <> TClosed) /\
    (forall v, In v sem -> In v semanticVocab) /\
    ~ (In "Index/Middle Together"%string sem /\ In "Index/Middle Spread"%string sem) /\
    let pre := a ++ thumbStrings t ++ sem in
    let st := if existsb (String.eqb "Thumb Touching Index"%string) pre
              then removeFirst "Index Extended"%string pre else pre in
    fst (detectFingerStates (Some raw) s)
    = match st with [] => ["Fist / Closed"%string] | _ => st end.
Proof.
  destruct (fingers_part s) as [a [s4 [Ef [Wf [Va Ca]]]]].
  destruct (Engine.getThumbState s4) as [t s5] eqn:Et.
  assert (W5 := getThumbState_world s4). rewrite Et in W5. simpl in W5.
  exists a, t, (Engine.getSemanticStates s5).
  split; [exact Va|]. split; [exact Ca|]. split.
  { intros Hw. rewrite (fingers_none s Hw) in Ef. injection Ef as <- <-.
    unfold Engine.getThumbState in Et. rewrite Hw in Et. injection Et as <- <-.
    unfold Engine.getSemanticStates. rewrite Hw. auto. }
  split.
  { intros Hw. unfold Engine.getThumbState in Et.
    destruct (Engine.worldLandmarks s4) eqn:E4; [|congruence].
    injection Et as <- _. apply getThumbState_not_closed. }
  split; [apply semantic_vocab|].
  split; [apply semantic_together_spread|].
  cbv zeta. unfold detectFingerStates. rewrite Ef, Et. rewrite !app_assoc. reflexivity.
Qed.

(** X8: while the same hand keeps being reported, each [update] moves every
    smoothed point 65% of the way to the raw one: after [n] frames the
    distance left to the raw landmarks is 0.35^n times the initial one, for
    the landmarks and the world landmarks alike. *)
Theorem X8_engine_smoothing_closed_form (s : Engine.State)
    (l w raw rw : list Point3D) (n : nat) :
  Engine.landmarks s = Some l -> Engine.worldLandmarks s = Some w ->
  List.length raw = List.length l -> List.length rw = List.length w ->
  exists s',
    Nat.iter n (fun o => match o with
                         | Some s => Engine.update s (Some raw) (Some rw)
                         | None => None
                         end) (Some s) = Some s' /\
    Engine.landmarks s'
    = Some (map (fun '(p, c) => add c (scale (0.35 ^ n) (sub p c))) (combine l raw)) /\
    Engine.worldLandmarks s'
    = Some (map (fun '(p, c) => add c (scale (0.35 ^ n) (sub p c))) (combine w rw)).
Proof.
  intros Hl Hw Hr Hrw. induction n as [|n IH].
  - exists s. simpl. rewrite combine_toward_1 by exact Hr.
    rewrite combine_toward_1 by exact Hrw. auto.
  - destruct IH as [s' [Hit [Hl' Hw']]].
    rewrite Nat.iter_succ, Hit. cbn beta iota.
    unfold Engine.update. rewrite Hl', Hw'.
    rewrite !lerpLandmarks_toward by assumption.
    eexists. split; [reflexivity|]. simpl. auto.
Qed.

Lemma X8_engine_smoothing_closed_form_witness :
  exists s',
    Nat.iter 2 (fun o => match o with
                         | Some s => Engine.update s (Some [P 1 0 0]) (Some [P 0 1 0])
                         | None => None
                         end)
      (Some {| Engine.landmarks := Some [zero3]; Engine.worldLandmarks := Some [zero3];
               Engine.fingerStates := []; Engine.thumbState := TSide |}) = Some s' /\
    Engine.landmarks s'
    = Some (map (fun '(p, c) => add c (scale (0.35 ^ 2) (sub p c)))
                (combine [zero3] [P 1 0 0])) /\
    Engine.worldLandmarks s'
    = Some (map (fun '(p, c) => add c (scale (0.35 ^ 2) (sub p c)))
                (combine [zero3] [P 0 1 0])).
Proof.
  apply (X8_engine_smoothing_closed_form
           {| Engine.landmarks := Some [zero3]; Engine.worldLandmarks := Some [zero3];
              Engine.fingerStates := []; Engine.thumbState := TSide |}
           [zero3] [zero3] [P 1 0 0] [P 0 1 0] 2);
    reflexivity.
Defined.

(** X9: after a frame without a hand, or a frame without world landmarks,
    the next [update] with a hand stores its raw landmarks unsmoothed. *)
Theorem X9_engine_no_smoothing_after_gap (s s' : Engine.State)
    (hand world rw : option (list Point3D)) (raw : list Point3D) :
  hand = None \/ world = None ->
  Engine.update s hand world = Some s' ->
  Engine.update s' (Some raw) rw
  = Some {| Engine.landmarks := Some raw; Engine.worldLandmarks := rw;
            Engine.fingerStates := Engine.fingerStates s;
            Engine.thumbState := Engine.thumbState s |}.
Proof.
  intros [->| ->] Hu.
  - simpl in Hu. injection Hu as <-. reflexivity.
  - unfold Engine.update in Hu. destruct hand as [r|].
    + destruct (Engine.landmarks s) as [l|], (Engine.worldLandmarks s) as [w|];
        injection Hu as <-; reflexivity.
    + injection Hu as <-. reflexivity.
Qed.

Lemma X9_engine_no_smoothing_after_gap_witness :
  ((None : option (list Point3D)) = None \/ Some [zero3] = None) /\
  Engine.update Engine.init None (Some [zero3])
  = Some {| Engine.landmarks := None; Engine.worldLandmarks := None;
            Engine.fingerStates := []; Engine.thumbState := TSide |} /\
  Engine.update {| Engine.landmarks := None; Engine.worldLandmarks := None;
                   Engine.fingerStates := []; Engine.thumbState := TSide |}
    (Some [P 1 0 0]) (Some [P 0 1 0])
  = Some {| Engine.landmarks := Some [P 1 0 0];
            Engine.worldLandmarks := Some [P 0 1 0];
            Engine.fingerStates := []; Engine.thumbState := TSide |}.
Proof.
  assert (H1 : (None : option (list Point3D)) = None \/ Some [zero3] = None)
    by (left; reflexivity).
  assert (H2 : Engine.update Engine.init None (Some [zero3])
               = Some {| Engine.landmarks := None; Engine.worldLandmarks := None;
                         Engine.fingerStates := []; Engine.thumbState := TSide |})
    by reflexivity.
  split; [exact H1|]. split; [exact H2|].
  exact (X9_engine_no_smoothing_after_gap Engine.init _ None (Some [zero3])
           (Some [P 0 1 0]) [P 1 0 0] H1 H2).
Defined.

(** X10: [getSemanticStates] never reports 'Index/Middle Together' and
    'Index/Middle Spread' together, and reports 'Index/Middle Crossed' only
    with 'Index/Middle Together'. *)
Theorem X10_semantic_states_consistent (s : Engine.State) :
  ~ (In "Index/Middle Together"%string (Engine.getSemanticStates s)
     /\ In "Index/Middle Spread"%string (Engine.getSemanticStates s)) /\
  (In "Index/Middle Crossed"%string (Engine.getSemanticStates s)
   -> In "Index/Middle Together"%string (Engine.getSemanticStates s)).
Proof. apply semantic_together_spread. Qed.

(** X11: when a finger's PIP landmark coincides with its MCP or its tip,
    [getFingerState] reports and stores 'Closed' (the angle is NaN), whatever
    the previous state and the tip's distance to the wrist. *)
Theorem X11_finger_closed_when_pip_coincides (s : Engine.State)
    (f : Engine.Finger) (w : list Point3D) (mcp pip tip : nat) :
  Engine.worldLandmarks s = Some w -> Engine.indices f = (mcp, pip, tip) ->
  lm w pip = lm w mcp \/ lm w pip = lm w tip ->
  fst (Engine.getFingerState s f) = Closed /\
  lookup (Engine.fingerName f)
    (Engine.fingerStates (snd (Engine.getFingerState s f))) = Some Closed.
Proof.
  intros Hw Hi Hp. unfold Engine.getFingerState. rewrite Hw, Hi. cbv zeta.
  rewrite calculateAngle_degenerate by exact Hp.
  simpl. rewrite String.eqb_refl. auto.
Qed.

Lemma X11_finger_closed_when_pip_coincides_witness :
  fst (Engine.getFingerState
         {| Engine.landmarks := None; Engine.worldLandmarks := Some sample_hand;
            Engine.fingerStates := [("Middle"%string, Extended)];
            Engine.thumbState := TSide |} Engine.Middle) = Closed.
Proof.
  apply (X11_finger_closed_when_pip_coincides _ _ sample_hand 9 10 12);
    [reflexivity|reflexivity|left; reflexivity].
Defined.

(** X12: on a frame with a hand, [fingerStates] is the placeholder
    ['Fist / Closed'] exactly when the engine has no world landmarks: with
    them, a thumb state is always listed. *)
Theorem X12_fingerStates_placeholder_iff_no_world (raw : list Point3D)
    (s : Engine.State) :
  fst (detectFingerStates (Some raw) s) = ["Fist / Closed"%string]
  <-> Engine.worldLandmarks s = None.
Proof.
  destruct (detectFingerStates_shape raw s)
    as [a [t [sem [Va [Ca [Hnone [Hsome [Vs [_ Heq]]]]]]]]].
  cbv zeta in Heq. rewrite Heq. split.
  - intros Hf. destruct (Engine.worldLandmarks s) as [w|] eqn:Ew; [|reflexivity].
    exfalso. assert (Ht : t <> TClosed) by (apply Hsome; discriminate).
    assert (Hth : exists th, In th (thumbStrings t) /\
                  th <> "Index Extended"%string /\ th <> "Fist / Closed"%string).
    { destruct t; simpl;
        first [contradiction
              |eexists; split; [left; reflexivity|split; discriminate]]. }
    destruct Hth as [th [Hin [Hne1 Hne2]]].
    set (pre := a ++ thumbStrings t ++ sem) in *.
    assert (Hpre : In th pre)
      by (unfold pre; apply in_or_app; right; apply in_or_app; left; exact Hin).
    set (st := if existsb (String.eqb "Thumb Touching Index"%string) pre
               then removeFirst "Index Extended"%string pre else pre) in *.
    assert (Hst : In th st)
      by (unfold st; destruct (existsb _ pre);
          [apply removeFirst_keep; [exact Hpre|exact Hne1]|exact Hpre]).
    clearbody st. destruct st as [|v vs]; [destruct Hst|].
    rewrite Hf in Hst. destruct Hst as [E|[]]. congruence.
  - intros Hw. destruct (Hnone Hw) as [-> [-> ->]]. reflexivity.
Qed.

(** X13: [fingerStates] never lists 'Index Extended' together with
    'Thumb Touching Index'. *)
Theorem X13_fingerStates_pinch_hides_index (hand : option (list Point3D))
    (s : Engine.State) :
  ~ (In "Thumb Touching Index"%string (fst (detectFingerStates hand s))
     /\ In "Index Extended"%string (fst (detectFingerStates hand s))).
Proof.
  destruct hand as [raw|]; [|simpl; intuition discriminate].
  destruct (detectFingerStates_shape raw s)
    as [a [t [sem [Va [Ca [_ [_ [Vs [_ Heq]]]]]]]]].
  cbv zeta in Heq. rewrite Heq.
  set (pre := a ++ thumbStrings t ++ sem).
  assert (Hc : (count_occ string_dec pre "Index Extended"%string <= 1)%nat).
  { unfold pre. rewrite !count_occ_app.
    assert (Ht : count_occ string_dec (thumbStrings t) "Index Extended"%string = 0%nat)
      by (destruct t; reflexivity).
    assert (Hs : count_occ string_dec sem "Index Extended"%string = 0%nat).
    { apply count_occ_not_In. intros Hin. apply Vs in Hin.
      unfold semanticVocab in Hin. simpl in Hin. intuition discriminate. }
    lia. }
  destruct (existsb (String.eqb "Thumb Touching Index"%string) pre) eqn:Ex.
  - assert (Hn := removeFirst_notin _ _ Hc).
    destruct (removeFirst "Index Extended"%string pre) as [|v vs];
      [simpl; intuition discriminate|].
    intros [_ H]. exact (Hn H).
  - intros [H1 H2].
    assert (Hin : In "Thumb Touching Index"%string pre).
    { destruct pre as [|v vs]; [simpl in H1; intuition discriminate|exact H1]. }
    assert (Hb : existsb (String.eqb "Thumb Touching Index"%string) pre = true)
      by (apply existsb_exists; exists "Thumb Touching Index"%string;
          split; [exact Hin|apply String.eqb_refl]).
    congruence.
Qed.

(** ** [analyzePose], the main loop and the target navigation *)

Open Scope Q_scope.

Lemma lookup_in {A : Type} (k : string) (entries : list (string * A)) (v : A) :
  lookup k entries = Some v -> In (k, v) entries.
Proof.
  induction entries as [|[k' v'] rest IH]; simpl; [discriminate|].
  destruct (String.eqb_spec k' k) as [->|_].
  - intros H. injection H as ->. left. reflexivity.
  - intros H. right. exact (IH H).
Qed.

Lemma best_fold (c : Q) (entries : list (string * Analyze.PoseEntry))
    (bl : option string) (ms : Q) :
  let r := fold_left (Analyze.best_step c) entries (bl, ms) in
  ms <= snd r /\
  (forall l e, In (l, e) entries -> Analyze.pmatch e = true ->
               Analyze.pscore e * c <= snd r) /\
  (r = (bl, ms) \/
   exists l e, In (l, e) entries /\ Analyze.pmatch e = true /\
               fst r = Some l /\ snd r = Analyze.pscore e * c).
Proof.
  revert bl ms. induction entries as [|[l e] rest IH]; intros bl ms; cbv zeta.
  - simpl. split; [apply Qle_refl|]. split; [tauto|left; reflexivity].
  - simpl fold_left. unfold Analyze.best_step at 2.
    destruct (Analyze.pmatch e) eqn:Em.
    + destruct (Analyze.Qltb ms (Analyze.pscore e * c)) eqn:Elt.
      * unfold Analyze.Qltb in Elt. apply negb_true_iff in Elt.
        assert (Hlt : ms < Analyze.pscore e * c).
        { apply Qnot_le_lt. intros Hle. apply Qle_bool_iff in Hle. congruence. }
        destruct (IH (Some l) (Analyze.pscore e * c)) as [H1 [H2 H3]].
        split; [apply Qlt_le_weak; eapply Qlt_le_trans; eassumption|].
        split.
        -- intros l' e' [E|Hin] Hm; [injection E as <- <-; exact H1|].
           exact (H2 l' e' Hin Hm).
        -- right. destruct H3 as [E|[l' [e' [Hin [Hm [Hf Hs]]]]]].
           ++ exists l, e. rewrite E. split; [left; reflexivity|auto].
           ++ exists l', e'. split; [right; exact Hin|auto].
      * unfold Analyze.Qltb in Elt. apply negb_false_iff in Elt.
        apply Qle_bool_iff in Elt.
        destruct (IH bl ms) as [H1 [H2 H3]].
        split; [exact H1|]. split.
        -- intros l' e' [E|Hin] Hm; [injection E as <- <-;
             eapply Qle_trans; eassumption|].
           exact (H2 l' e' Hin Hm).
        -- destruct H3 as [E|[l' [e' [Hin [Hm [Hf Hs]]]]]]; [left; exact E|].
           right. exists l', e'. split; [right; exact Hin|auto].
    + destruct (IH bl ms) as [H1 [H2 H3]].
      split; [exact H1|]. split.
      * intros l' e' [E|Hin] Hm; [injection E as <- <-; congruence|].
        exact (H2 l' e' Hin Hm).
      * destruct H3 as [E|[l' [e' [Hin [Hm [Hf Hs]]]]]]; [left; exact E|].
        right. exists l', e'. split; [right; exact Hin|auto].
Qed.

Lemma poses_score_range (states : list string) (l : string)
    (e : Analyze.PoseEntry) :
  In (l, e) (Analyze.poses states) ->
  85 # 100 <= Analyze.pscore e <= 98 # 100.
Proof.
  unfold Analyze.poses. intros H.
  repeat (destruct H as [E|H]; [injection E as <- <-; simpl;
    try destruct (Analyze.is states "Thumb Touching Middle");
    split; unfold Qle; simpl; lia|]).
  destruct H.
Qed.

(** The gate of [analyzePose] passed, and the result of its loop. *)
Lemma analyzePose_open (handCount : nat) (states : list string)
    (confidence : Q) (targetLetter : string) :
  Nat.eqb handCount 0 || Analyze.firstIsSearching states
  || Analyze.Qltb confidence (1 # 2) = false ->
  Analyze.analyzePose handCount states confidence targetLetter
  = (fst (fold_left (Analyze.best_step confidence) (Analyze.poses states) (None, 0)),
     match lookup targetLetter (Analyze.poses states) with
     | Some targetPose =>
         if Analyze.pmatch targetPose
         then Analyze.pscore targetPose * confidence else 0
     | None => 0
     end).
Proof.
  intros Hg. unfold Analyze.analyzePose. rewrite Hg.
  destruct (fold_left _ _ _) as [bl ms]. reflexivity.
Qed.

Lemma gate_closed (handCount : nat) (states : list string)
    (confidence : Q) (targetLetter : string) :
  Nat.eqb handCount 0 || Analyze.firstIsSearching states
  || Analyze.Qltb confidence (1 # 2) = true ->
  Analyze.analyzePose handCount states confidence targetLetter = (None, 0).
Proof. intros Hg. unfold Analyze.analyzePose. rewrite Hg. reflexivity. Qed.

Lemma gate_open_iff (handCount : nat) (states : list string) (confidence : Q) :
  Nat.eqb handCount 0 || Analyze.firstIsSearching states
  || Analyze.Qltb confidence (1 # 2) = false
  <-> handCount <> 0%nat /\ Analyze.firstIsSearching states = false
      /\ 1 # 2 <= confidence.
Proof.
  rewrite !orb_false_iff, Nat.eqb_neq. unfold Analyze.Qltb.
  rewrite negb_false_iff, Qle_bool_iff. tauto.
Qed.

Lemma analyzePose_target_bound (handCount : nat) (states : list string)
    (confidence : Q) (targetLetter : string) :
  0 <= confidence ->
  let r := Analyze.analyzePose handCount states confidence targetLetter in
  0 <= snd r /\ snd r <= (98 # 100) * confidence /\
  (0 < snd r -> exists l e, fst r = Some l /\ In (l, e) (Analyze.poses states)
                            /\ snd r <= Analyze.pscore e * confidence).
Proof.
  intros Hc. cbv zeta.
  destruct (Nat.eqb handCount 0 || Analyze.firstIsSearching states
            || Analyze.Qltb confidence (1 # 2)) eqn:Hg.
  - rewrite gate_closed by exact Hg. simpl. split; [apply Qle_refl|].
    split; [|intros H; apply Qlt_irrefl in H; contradiction].
    apply Qmult_le_0_compat; [unfold Qle; simpl; lia|exact Hc].
  - rewrite analyzePose_open by exact Hg. cbn [fst snd].
    destruct (lookup targetLetter (Analyze.poses states)) as [tp|] eqn:El.
    2: { split; [apply Qle_refl|].
         split; [apply Qmult_le_0_compat; [unfold Qle; simpl; lia|exact Hc]|].
         intros H; apply Qlt_irrefl in H; contradiction. }
    apply lookup_in in El.
    destruct (poses_score_range _ _ _ El) as [Hlo Hhi].
    destruct (Analyze.pmatch tp) eqn:Em.
    2: { split; [apply Qle_refl|].
         split; [apply Qmult_le_0_compat; [unfold Qle; simpl; lia|exact Hc]|].
         intros H; apply Qlt_irrefl in H; contradiction. }
    split; [apply Qmult_le_0_compat; [eapply Qle_trans; [|exact Hlo];
                                      unfold Qle; simpl; lia|exact Hc]|].
    split; [apply Qmult_le_compat_r; [exact Hhi|exact Hc]|].
    intros Hpos.
    destruct (best_fold confidence (Analyze.poses states) None 0)
      as [_ [H2 H3]]. cbv zeta in H2, H3.
    specialize (H2 _ _ El Em).
    destruct H3 as [E|[l [e [Hin [Hm [Hf Hs]]]]]].
    + rewrite E in H2. simpl in H2.
      exfalso. apply (Qlt_not_le _ _ Hpos), H2.
    + exists l, e. split; [exact Hf|]. split; [exact Hin|]. rewrite <- Hs. exact H2.
Qed.

Lemma two_in_length {A : Type} (a b : A) (l : list A) :
  In a l -> In b l -> a <> b -> (2 <= List.length l)%nat.
Proof.
  induction l as [|h t IH]; intros Ha Hb Hne; [destruct Ha|].
  simpl. destruct Ha as [<-|Ha], Hb as [<-|Hb].
  - contradiction.
  - destruct t; [destruct Hb|simpl; lia].
  - destruct t; [destruct Ha|simpl; lia].
  - specialize (IH Ha Hb Hne). lia.
Qed.

(** X14: [analyzePose] reports a letter only when a hand is counted, the
    first state is not 'Searching...' and the confidence is at least 0.5;
    that letter's pose matches and no matching pose has a higher score. *)
Theorem X14_analyzePose_detects_best_match (handCount : nat)
    (states : list string) (confidence : Q) (targetLetter l : string) :
  fst (Analyze.analyzePose handCount states confidence targetLetter) = Some l ->
  handCount <> 0%nat /\ Analyze.firstIsSearching states = false /\
  1 # 2 <= confidence /\
  exists e, In (l, e) (Analyze.poses states) /\ Analyze.pmatch e = true /\
    forall l' e', In (l', e') (Analyze.poses states) ->
                  Analyze.pmatch e' = true -> Analyze.pscore e' <= Analyze.pscore e.
Proof.
  intros H.
  destruct (Nat.eqb handCount 0 || Analyze.firstIsSearching states
            || Analyze.Qltb confidence (1 # 2)) eqn:Hg.
  { rewrite gate_closed in H by exact Hg. discriminate. }
  destruct (proj1 (gate_open_iff _ _ _) Hg) as [H1 [H2 H3]].
  split; [exact H1|]. split; [exact H2|]. split; [exact H3|].
  rewrite analyzePose_open in H by exact Hg. cbn [fst] in H.
  destruct (best_fold confidence (Analyze.poses states) None 0)
    as [_ [Hmax Hor]]. cbv zeta in Hmax, Hor.
  destruct Hor as [E|[l0 [e [Hin [Hm [Hf Hs]]]]]]; [rewrite E in H; discriminate|].
  rewrite H in Hf. injection Hf as <-.
  exists e. split; [exact Hin|]. split; [exact Hm|].
  intros l' e' Hin' Hm'. specialize (Hmax _ _ Hin' Hm'). rewrite Hs in Hmax.
  apply (Qmult_le_r _ _ confidence); [|exact Hmax].
  eapply Qlt_le_trans; [|exact H3]. reflexivity.
Qed.

Lemma X14_analyzePose_detects_best_match_witness :
  fst (Analyze.analyzePose 1 ["Index Extended"; "Middle Extended";
                              "Index/Middle Spread"]%string (9 # 10) "V")
  = Some "V"%string /\
  (1 <> 0)%nat.
Proof.
  assert (H : fst (Analyze.analyzePose 1 ["Index Extended"; "Middle Extended";
                              "Index/Middle Spread"]%string (9 # 10) "V")
              = Some "V"%string) by reflexivity.
  split; [exact H|].
  exact (proj1 (X14_analyzePose_detects_best_match _ _ _ _ _ H)).
Defined.

(** X15: once the gate of [analyzePose] passes (a hand is counted, the first
    state is not 'Searching...', confidence at least 0.5), it reports no
    letter exactly when no pose of its table matches. *)
Theorem X15_analyzePose_null_iff_no_match (handCount : nat)
    (states : list string) (confidence : Q) (targetLetter : string) :
  handCount <> 0%nat -> Analyze.firstIsSearching states = false ->
  1 # 2 <= confidence ->
  (fst (Analyze.analyzePose handCount states confidence targetLetter) = None
   <-> forall l e, In (l, e) (Analyze.poses states) -> Analyze.pmatch e = false).
Proof.
  intros H1 H2 H3.
  assert (Hg := proj2 (gate_open_iff handCount states confidence) (conj H1 (conj H2 H3))).
  rewrite analyzePose_open by exact Hg. cbn [fst].
  destruct (best_fold confidence (Analyze.poses states) None 0)
    as [_ [Hmax Hor]]. cbv zeta in Hmax, Hor.
  split.
  - intros Hn l e Hin. destruct (Analyze.pmatch e) eqn:Hm; [|reflexivity].
    exfalso. specialize (Hmax _ _ Hin Hm).
    destruct Hor as [E|[l0 [e0 [_ [_ [Hf _]]]]]]; [|rewrite Hn in Hf; discriminate].
    rewrite E in Hmax. simpl in Hmax.
    destruct (poses_score_range _ _ _ Hin) as [Hlo _].
    assert (Hp : 0 < Analyze.pscore e * confidence).
    { apply Qmult_lt_0_compat.
      - eapply Qlt_le_trans; [|exact Hlo]. reflexivity.
      - eapply Qlt_le_trans; [|exact H3]. reflexivity. }
    apply (Qlt_not_le _ _ Hp), Hmax.
  - intros Hall. destruct Hor as [E|[l0 [e0 [Hin [Hm _]]]]]; [rewrite E; reflexivity|].
    rewrite (Hall _ _ Hin) in Hm. discriminate.
Qed.

Lemma X15_analyzePose_null_iff_no_match_witness :
  fst (Analyze.analyzePose 1 ["Thumb Side"]%string (9 # 10) "A") <> None.
Proof.
  intros H.
  assert (Hall := proj1 (X15_analyzePose_null_iff_no_match 1 ["Thumb Side"]%string
                           (9 # 10) "A" ltac:(discriminate) eq_refl
                           ltac:(unfold Qle; simpl; lia)) H).
  specialize (Hall "A"%string _ (or_introl eq_refl)). discriminate.
Defined.

(** X16: with a non-negative confidence, the target similarity of
    [analyzePose] lies between 0 and 0.98 times the confidence; when it is
    positive, a letter is detected whose score times the confidence is at
    least the target similarity. *)
Theorem X16_analyzePose_target_similarity (handCount : nat)
    (states : list string) (confidence : Q) (targetLetter : string) :
  0 <= confidence ->
  0 <= snd (Analyze.analyzePose handCount states confidence targetLetter) /\
  snd (Analyze.analyzePose handCount states confidence targetLetter)
    <= (98 # 100) * confidence /\
  (0 < snd (Analyze.analyzePose handCount states confidence targetLetter) ->
   exists l e,
     fst (Analyze.analyzePose handCount states confidence targetLetter) = Some l /\
     In (l, e) (Analyze.poses states) /\
     snd (Analyze.analyzePose handCount states confidence targetLetter)
     <= Analyze.pscore e * confidence).
Proof. exact (analyzePose_target_bound handCount states confidence targetLetter). Qed.

Lemma X16_analyzePose_target_similarity_witness :
  0 <= snd (Analyze.analyzePose 1 ["Index Extended"; "Middle Extended";
                                   "Index/Middle Spread"]%string (9 # 10) "V").
Proof.
  exact (proj1 (X16_analyzePose_target_similarity 1 _ (9 # 10) "V"
                  ltac:(unfold Qle; simpl; lia))).
Defined.

(** X17: in the table of [analyzePose], 'D' matches exactly when only the
    index finger is extended and 'Y' exactly when only the pinky and the
    thumb are: the second disjunct of each never changes the result. *)
Theorem X17_pose_table_redundant_disjuncts (states : list string) :
  option_map Analyze.pmatch (lookup "D"%string (Analyze.poses states))
  = Some (Analyze.only states ["Index Extended"%string]) /\
  option_map Analyze.pmatch (lookup "Y"%string (Analyze.poses states))
  = Some (Analyze.only states ["Pinky Extended"; "Thumb Extended"]%string).
Proof.
  split; simpl.
  - destruct (Analyze.only states ["Index Extended"%string]); reflexivity.
  - f_equal. destruct (Analyze.only states _); [reflexivity|]. simpl.
    destruct (Analyze.is states "Pinky Extended") eqn:HP; [|reflexivity].
    destruct (Analyze.is states "Thumb Extended") eqn:HT; [|reflexivity].
    simpl. apply Nat.eqb_neq. unfold Analyze.count.
    unfold Analyze.is in HP, HT. apply existsb_exists in HP, HT.
    destruct HP as [p [Hp Ep]], HT as [t [Ht Et]].
    apply String.eqb_eq in Ep, Et. subst p t.
    assert (2 <= List.length (Analyze.extendedFingers states))%nat; [|lia].
    apply (two_in_length "Pinky Extended"%string "Thumb Extended"%string);
      [| |discriminate]; apply filter_In; split; auto.
Qed.

(** X18: one run of the main loop ([analyzePose] then the debounce) keeps
    [liveAccuracy] in [0, 98] when the confidence is in [0, 1]. *)
Theorem X18_liveAccuracy_bounded (s : Debounce.State) (handCount : nat)
    (states : list string) (confidence : Q) (targetLetter : string) :
  (0 <= Debounce.liveAccuracy s <= 98)%Z -> 0 <= confidence <= 1 ->
  (0 <= Debounce.liveAccuracy
          (loopStep s handCount states confidence targetLetter) <= 98)%Z.
Proof.
  intros Hs [Hc0 Hc1]. unfold loopStep.
  destruct (analyzePose_target_bound handCount states confidence targetLetter Hc0)
    as [Hlo [Hhi _]].
  destruct (Analyze.analyzePose handCount states confidence targetLetter)
    as [d sim]. simpl in Hlo, Hhi.
  assert (Hsim : sim <= 98 # 100).
  { eapply Qle_trans; [exact Hhi|].
    rewrite <- (Qmult_1_r (98 # 100)) at 2.
    apply Qmult_le_l; [reflexivity|exact Hc1]. }
  assert (Hr : (0 <= Debounce.round (sim * 100) <= 98)%Z).
  { unfold Debounce.round. split.
    - change 0%Z with (Qfloor (0 * 100 + (1 # 2))). apply Qfloor_resp_le.
      apply Qplus_le_l. apply Qmult_le_compat_r; [exact Hlo|discriminate].
    - change 98%Z with (Qfloor ((98 # 100) * 100 + (1 # 2))). apply Qfloor_resp_le.
      apply Qplus_le_l. apply Qmult_le_compat_r; [exact Hsim|discriminate]. }
  unfold Debounce.step.
  destruct (opt_eqb d (Debounce.lastFrameLetter s)); cbn beta iota;
    match goal with |- context [if ?b then _ else _] => destruct b end;
    cbn [Debounce.liveAccuracy]; lia.
Qed.

Lemma X18_liveAccuracy_bounded_witness :
  (0 <= Debounce.liveAccuracy
          (loopStep Debounce.init 1 ["Thumb Side"]%string (9 # 10) "A") <= 98)%Z.
Proof.
  apply X18_liveAccuracy_bounded; [simpl; lia|].
  split; unfold Qle; simpl; lia.
Defined.

Lemma Z_range15 (i : Z) : (0 <=? i)%Z && (i <? 15)%Z = true -> (0 <= i < 15)%Z.
Proof. intros H. apply andb_true_iff in H. destruct H as [H1 H2]. lia. Qed.

(** X19: from a target index in [0, 14], [handleNext] and [handlePrev] stay
    in [0, 14] and undo each other, and [ALPHABET[targetIndex]] is always a
    key of the pose table of [analyzePose]. *)
Theorem X19_target_navigation (targetIndex : Z) (states : list string) :
  (0 <= targetIndex < 15)%Z ->
  (0 <= handleNext targetIndex < 15)%Z /\ (0 <= handlePrev targetIndex < 15)%Z /\
  handlePrev (handleNext targetIndex) = targetIndex /\
  handleNext (handlePrev targetIndex) = targetIndex /\
  exists t e, targetLetterAt targetIndex = Some t /\
              lookup t (Analyze.poses states) = Some e.
Proof.
  intros Hi.
  assert (H : targetIndex = 0%Z \/ targetIndex = 1%Z \/ targetIndex = 2%Z \/
              targetIndex = 3%Z \/ targetIndex = 4%Z \/ targetIndex = 5%Z \/
              targetIndex = 6%Z \/ targetIndex = 7%Z \/ targetIndex = 8%Z \/
              targetIndex = 9%Z \/ targetIndex = 10%Z \/ targetIndex = 11%Z \/
              targetIndex = 12%Z \/ targetIndex = 13%Z \/ targetIndex = 14%Z)
    by lia.
  repeat destruct H as [->|H]; try (subst targetIndex);
    (split; [apply Z_range15; reflexivity|]);
    (split; [apply Z_range15; reflexivity|]);
    (split; [reflexivity|]); (split; [reflexivity|]);
    eexists _, _; split; reflexivity.
Qed.

Lemma X19_target_navigation_witness :
  handlePrev (handleNext 14) = 14%Z.
Proof.
  exact (proj1 (proj2 (proj2 (X19_target_navigation 14 [] ltac:(lia))))).
Defined.

Close Scope Q_scope.

(** ** The window of [useStablePrediction] *)

Lemma window_adj_tl (p : list (option string)) :
  (forall l1 a b l2, p = l1 ++ a :: b :: l2 -> a <> b) ->
  forall l1 a b l2, tl p = l1 ++ a :: b :: l2 -> a <> b.
Proof.
  intros Hadj l1 a b l2 E. destruct p as [|h t]; simpl in E.
  - destruct l1; discriminate.
  - apply (Hadj (h :: l1) a b l2). rewrite E. reflexivity.
Qed.

Lemma window_adj_snoc (buf : list (option string)) (x : option string) :
  (forall l1 a b l2, buf = l1 ++ a :: b :: l2 -> a <> b) ->
  (forall pre r, buf = pre ++ [r] -> r <> x) ->
  forall l1 a b l2, buf ++ [x] = l1 ++ a :: b :: l2 -> a <> b.
Proof.
  intros Hadj Hlast l1 a b l2 E.
  induction l2 as [|c l2' _] using rev_ind.
  - replace (l1 ++ [a; b]) with ((l1 ++ [a]) ++ [b]) in E
      by (rewrite <- app_assoc; reflexivity).
    apply app_inj_tail in E as [E1 E2]. subst b. exact (Hlast _ _ E1).
  - replace (l1 ++ a :: b :: l2' ++ [c]) with ((l1 ++ a :: b :: l2') ++ [c]) in E
      by (rewrite <- app_assoc; reflexivity).
    apply app_inj_tail in E as [E1 _]. exact (Hadj _ _ _ _ E1).
Qed.

Lemma window_effect_inv (windowSize : nat) (threshold : Q) (s : Stable.State)
    (x : option string) :
  (List.length (Stable.buffer s) <= windowSize)%nat ->
  (forall l1 a b l2, Stable.buffer s = l1 ++ a :: b :: l2 -> a <> b) ->
  (forall pre r, Stable.buffer s = pre ++ [r] -> r <> x) ->
  (List.length (Stable.buffer (Stable.effect windowSize threshold s x)) <= windowSize)%nat /\
  (forall l1 a b l2, Stable.buffer (Stable.effect windowSize threshold s x)
                     = l1 ++ a :: b :: l2 -> a <> b) /\
  ((windowSize = 0%nat /\ Stable.buffer (Stable.effect windowSize threshold s x) = []) \/
   exists pre, Stable.buffer (Stable.effect windowSize threshold s x) = pre ++ [x]) /\
  Stable.lastRaw (Stable.effect windowSize threshold s x) = Some x.
Proof.
  intros Hlen Hadj Hlast.
  assert (Hp := window_adj_snoc _ _ Hadj Hlast).
  unfold Stable.effect. cbv zeta. cbn [Stable.buffer Stable.lastRaw].
  split; [|split; [|split; [|reflexivity]]].
  - destruct (Nat.ltb_spec windowSize (List.length (Stable.buffer s ++ [x]))) as [Hl|Hl];
      [|exact Hl].
    rewrite length_app in Hl. simpl in Hl.
    destruct (Stable.buffer s) as [|h t]; simpl in *; rewrite ?length_app; simpl; lia.
  - destruct (Nat.ltb _ _); [apply window_adj_tl|]; exact Hp.
  - destruct (Nat.ltb_spec windowSize (List.length (Stable.buffer s ++ [x]))) as [Hl|Hl].
    + destruct (Stable.buffer s) as [|h t]; simpl in *.
      * left. split; [lia|reflexivity].
      * right. exists t. reflexivity.
    + right. exists (Stable.buffer s). reflexivity.
Qed.

Lemma window_frame_inv (windowSize : nat) (threshold : Q) (s : Stable.State)
    (x : option string) :
  (List.length (Stable.buffer s) <= windowSize)%nat /\
  (forall l1 a b l2, Stable.buffer s = l1 ++ a :: b :: l2 -> a <> b) /\
  match Stable.lastRaw s with
  | None => Stable.buffer s = []
  | Some r => (windowSize = 0%nat /\ Stable.buffer s = []) \/
              exists pre, Stable.buffer s = pre ++ [r]
  end ->
  let s' := Stable.frame windowSize threshold s x in
  (List.length (Stable.buffer s') <= windowSize)%nat /\
  (forall l1 a b l2, Stable.buffer s' = l1 ++ a :: b :: l2 -> a <> b) /\
  match Stable.lastRaw s' with
  | None => Stable.buffer s' = []
  | Some r => (windowSize = 0%nat /\ Stable.buffer s' = []) \/
              exists pre, Stable.buffer s' = pre ++ [r]
  end.
Proof.
  intros [Hlen [Hadj Hlr]]. cbv zeta.
  assert (Heff : (forall pre r, Stable.buffer s = pre ++ [r] -> r <> x) ->
    (List.length (Stable.buffer (Stable.effect windowSize threshold s x)) <= windowSize)%nat /\
    (forall l1 a b l2, Stable.buffer (Stable.effect windowSize threshold s x)
                       = l1 ++ a :: b :: l2 -> a <> b) /\
    match Stable.lastRaw (Stable.effect windowSize threshold s x) with
    | None => Stable.buffer (Stable.effect windowSize threshold s x) = []
    | Some r => (windowSize = 0%nat /\
                 Stable.buffer (Stable.effect windowSize threshold s x) = []) \/
                exists pre, Stable.buffer (Stable.effect windowSize threshold s x)
                            = pre ++ [r]
    end).
  { intros Hl. destruct (window_effect_inv windowSize threshold s x Hlen Hadj Hl)
      as [H1 [H2 [H3 H4]]].
    rewrite H4. auto. }
  unfold Stable.frame. destruct (Stable.lastRaw s) as [r|] eqn:Er.
  - destruct (opt_eqb r x) eqn:Eq.
    + rewrite Er. auto.
    + apply Heff.
      assert (Hne : r <> x)
        by (intros E'; subst; rewrite opt_eqb_refl in Eq; discriminate).
      intros pre r' E. destruct Hlr as [[_ E0]|[pre0 E0]].
      * rewrite E0 in E. destruct pre; discriminate.
      * rewrite E0 in E. apply app_inj_tail in E as [_ <-]. exact Hne.
  - apply Heff. intros pre r' E. rewrite Hlr in E. destruct pre; discriminate.
Qed.

Lemma window_run_inv (windowSize : nat) (threshold : Q)
    (frames : list (option string)) (s : Stable.State) :
  (List.length (Stable.buffer s) <= windowSize)%nat /\
  (forall l1 a b l2, Stable.buffer s = l1 ++ a :: b :: l2 -> a <> b) /\
  match Stable.lastRaw s with
  | None => Stable.buffer s = []
  | Some r => (windowSize = 0%nat /\ Stable.buffer s = []) \/
              exists pre, Stable.buffer s = pre ++ [r]
  end ->
  let s' := fold_left (Stable.frame windowSize threshold) frames s in
  (List.length (Stable.buffer s') <= windowSize)%nat /\
  (forall l1 a b l2, Stable.buffer s' = l1 ++ a :: b :: l2 -> a <> b) /\
  match Stable.lastRaw s' with
  | None => Stable.buffer s' = []
  | Some r => (windowSize = 0%nat /\ Stable.buffer s' = []) \/
              exists pre, Stable.buffer s' = pre ++ [r]
  end.
Proof.
  revert s. induction frames as [|x rest IH]; intros s H; [exact H|].
  simpl. apply IH. exact (window_frame_inv windowSize threshold s x H).
Qed.

Lemma tally_fold_most (buf : list (option string)) (t : Stable.Tally) (p : string) :
  Stable.mostFrequent (fold_left Stable.tally_step buf t) = Some p ->
  Stable.mostFrequent t = Some p \/ In (Some p) buf.
Proof.
  revert t. induction buf as [|a rest IH]; intros t H; [left; exact H|].
  simpl in H. destruct (IH _ H) as [H1|H1]; [|right; right; exact H1].
  destruct a as [q|]; simpl in H1.
  - destruct (Nat.ltb _ _); simpl in H1.
    + right. left. congruence.
    + left. exact H1.
  - left. exact H1.
Qed.

Lemma stable_effect_origin (windowSize : nat) (threshold : Q) (s : Stable.State)
    (x : option string) (seen : list (option string)) :
  (forall v, In v (Stable.buffer s) -> In v seen) ->
  (forall p, Stable.stablePrediction s = Some p -> In (Some p) seen /\ p <> ""%string) ->
  (forall v, In v (Stable.buffer (Stable.effect windowSize threshold s x)) ->
             In v (seen ++ [x])) /\
  (forall p, Stable.stablePrediction (Stable.effect windowSize threshold s x) = Some p ->
             In (Some p) (seen ++ [x]) /\ p <> ""%string).
Proof.
  intros Hb Hp.
  assert (Hbuf : forall v, In v (Stable.buffer (Stable.effect windowSize threshold s x)) ->
                           In v (seen ++ [x])).
  { unfold Stable.effect. cbv zeta. cbn [Stable.buffer]. intros v Hv.
    assert (Hv' : In v (Stable.buffer s ++ [x])).
    { destruct (Nat.ltb _ _); [|exact Hv].
      destruct (Stable.buffer s ++ [x]); [destruct Hv|right; exact Hv]. }
    apply in_app_or in Hv'. apply in_or_app.
    destruct Hv' as [Hv'|Hv']; [left; exact (Hb _ Hv')|right; exact Hv']. }
  split; [exact Hbuf|]. intros p.
  assert (Hsame : Stable.stablePrediction (Stable.effect windowSize threshold s x)
      = if truthy (Stable.mostFrequent (Stable.tally (Stable.buffer
                     (Stable.effect windowSize threshold s x))))
           && ratio_ge (Stable.maxCount (Stable.tally (Stable.buffer
                     (Stable.effect windowSize threshold s x))))
                (List.length (Stable.buffer (Stable.effect windowSize threshold s x)))
                threshold
        then Stable.mostFrequent (Stable.tally (Stable.buffer
                     (Stable.effect windowSize threshold s x)))
        else if ratio_ge (Stable.nullCount (Stable.tally (Stable.buffer
                     (Stable.effect windowSize threshold s x))))
                (List.length (Stable.buffer (Stable.effect windowSize threshold s x)))
                threshold
        then None else Stable.stablePrediction s) by reflexivity.
  rewrite Hsame. clear Hsame.
  set (buf := Stable.buffer (Stable.effect windowSize threshold s x)) in *.
  destruct (truthy (Stable.mostFrequent (Stable.tally buf))) eqn:Et; simpl.
  - destruct (ratio_ge _ _ _).
    + intros Hm. rewrite Hm in Et. simpl in Et.
      split.
      * destruct (tally_fold_most buf _ p Hm) as [H0|H0]; [discriminate|].
        exact (Hbuf _ H0).
      * intros E. rewrite E in Et. discriminate.
    + destruct (ratio_ge _ _ _); [discriminate|].
      intros H. destruct (Hp p H) as [H1 H2]. split; [apply in_or_app; left|]; assumption.
  - destruct (ratio_ge _ _ _); [discriminate|].
    intros H. destruct (Hp p H) as [H1 H2]. split; [apply in_or_app; left|]; assumption.
Qed.

Lemma stable_run_origin (windowSize : nat) (threshold : Q)
    (frames : list (option string)) (s : Stable.State) (seen : list (option string)) :
  (forall v, In v (Stable.buffer s) -> In v seen) ->
  (forall p, Stable.stablePrediction s = Some p -> In (Some p) seen /\ p <> ""%string) ->
  forall p, Stable.stablePrediction (fold_left (Stable.frame windowSize threshold) frames s)
            = Some p -> In (Some p) (seen ++ frames) /\ p <> ""%string.
Proof.
  revert s seen. induction frames as [|x rest IH]; intros s seen Hb Hp.
  - rewrite app_nil_r. exact Hp.
  - simpl. replace (seen ++ x :: rest) with ((seen ++ [x]) ++ rest)
      by (rewrite <- app_assoc; reflexivity).
    apply IH.
    + unfold Stable.frame. destruct (Stable.lastRaw s) as [r|];
        [destruct (opt_eqb r x)|];
        try (intros v Hv; apply in_or_app; left; exact (Hb v Hv));
        exact (proj1 (stable_effect_origin windowSize threshold s x seen Hb Hp)).
    + unfold Stable.frame. destruct (Stable.lastRaw s) as [r|];
        [destruct (opt_eqb r x)|];
        try (intros q Hq; destruct (Hp q Hq); split; [apply in_or_app; left|]; assumption);
        exact (proj2 (stable_effect_origin windowSize threshold s x seen Hb Hp)).
Qed.

(** X20: the window of [useStablePrediction] never holds more than
    [windowSize] labels, never holds the same label at two adjacent places,
    and ends with the label of the last run of the effect (unless
    [windowSize] is 0, when it stays empty). *)
Theorem X20_window_invariant (windowSize : nat) (threshold : Q)
    (frames : list (option string)) :
  (List.length (Stable.buffer (Stable.run windowSize threshold frames)) <= windowSize)%nat /\
  (forall l1 a b l2, Stable.buffer (Stable.run windowSize threshold frames)
                     = l1 ++ a :: b :: l2 -> a <> b) /\
  match Stable.lastRaw (Stable.run windowSize threshold frames) with
  | None => Stable.buffer (Stable.run windowSize threshold frames) = []
  | Some r => (windowSize = 0%nat /\ Stable.buffer (Stable.run windowSize threshold frames) = []) \/
              exists pre, Stable.buffer (Stable.run windowSize threshold frames) = pre ++ [r]
  end.
Proof.
  apply window_run_inv. simpl. split; [lia|]. split; [|reflexivity].
  intros l1 a b l2 E. destruct l1; discriminate.
Qed.

(** X21: the stable prediction of [useStablePrediction], when not null, is
    a non-empty label that was the raw prediction of some frame. *)
Theorem X21_stable_prediction_origin (windowSize : nat) (threshold : Q)
    (frames : list (option string)) (p : string) :
  Stable.stablePrediction (Stable.run windowSize threshold frames) = Some p ->
  In (Some p) frames /\ p <> ""%string.
Proof.
  intros H.
  apply (stable_run_origin windowSize threshold frames Stable.init []); simpl;
    [tauto|discriminate|exact H].
Qed.

Lemma X21_stable_prediction_origin_witness :
  In (Some "A"%string) [Some "A"%string] /\ "A"%string <> ""%string.
Proof.
  apply (X21_stable_prediction_origin 5 (3 # 5)%Q). vm_compute. reflexivity.
Defined.

(** ** The hook's [fingerStates] read by [analyzePose] *)

Lemma hook_states_from_sem (raw : list Point3D) (s : Engine.State) (v : string) :
  ~ In v fingerVocab -> ~ In v thumbVocab -> v <> "Fist / Closed"%string ->
  In v (fst (detectFingerStates (Some raw) s)) ->
  exists sem, In v sem /\
    ~ (In "Index/Middle Together"%string sem /\ In "Index/Middle Spread"%string sem) /\
    (forall w, In w sem -> In w semanticVocab) /\
    (forall w, In w (fst (detectFingerStates (Some raw) s)) ->
               ~ In w fingerVocab -> ~ In w thumbVocab ->
               w <> "Fist / Closed"%string -> In w sem).
Proof.
  intros Hf Ht Hc Hv.
  destruct (detectFingerStates_shape raw s)
    as [a [t [sem [Va [_ [_ [_ [Vs [Hts Heq]]]]]]]]].
  cbv zeta in Heq. rewrite Heq in *.
  set (pre := a ++ thumbStrings t ++ sem) in *.
  set (st := if existsb (String.eqb "Thumb Touching Index"%string) pre
             then removeFirst "Index Extended"%string pre else pre) in *.
  assert (Hst : forall w, In w st -> In w pre).
  { intros w Hw. unfold st in Hw. destruct (existsb _ _); [|exact Hw].
    exact (removeFirst_sub _ _ _ Hw). }
  clearbody st.
  assert (Hgen : forall w, In w (match st with
                                 | [] => ["Fist / Closed"%string] | _ :: _ => st end) ->
                   ~ In w fingerVocab -> ~ In w thumbVocab ->
                   w <> "Fist / Closed"%string -> In w sem).
  { intros w Hw Hwf Hwt Hwc.
    assert (Hpre : In w pre).
    { destruct st as [|h r]; [destruct Hw as [E|[]]; congruence|exact (Hst _ Hw)]. }
    unfold pre in Hpre.
    apply in_app_or in Hpre. destruct Hpre as [Hw'|Hw']; [exfalso; exact (Hwf (Va _ Hw'))|].
    apply in_app_or in Hw'. destruct Hw' as [Hw'|Hw']; [|exact Hw'].
    exfalso. apply Hwt. destruct t; simpl in Hw'; unfold thumbVocab; simpl;
      intuition. }
  exists sem. split; [exact (Hgen v Hv Hf Ht Hc)|].
  split; [exact Hts|]. split; [exact Vs|exact Hgen].
Qed.

Lemma hook_together_spread (hand : option (list Point3D)) (s : Engine.State) :
  ~ (In "Index/Middle Together"%string (fst (detectFingerStates hand s)) /\
     In "Index/Middle Spread"%string (fst (detectFingerStates hand s))).
Proof.
  destruct hand as [raw|]; [|simpl; intuition discriminate].
  intros [H1 H2].
  destruct (hook_states_from_sem raw s "Index/Middle Together"%string
              ltac:(unfold fingerVocab; simpl; intuition discriminate)
              ltac:(unfold thumbVocab; simpl; intuition discriminate)
              ltac:(discriminate) H1) as [sem [Hin1 [Hts [_ Hall]]]].
  apply Hts. split; [exact Hin1|].
  apply Hall; [exact H2|unfold fingerVocab; simpl; intuition discriminate
              |unfold thumbVocab; simpl; intuition discriminate|discriminate].
Qed.

(** X22: on the [fingerStates] of the hand-tracking hook, 'Index/Middle
    Together' and 'Index/Middle Spread' never appear together, so the poses
    'U' and 'V' of [analyzePose] never both match. *)
Theorem X22_hook_states_U_V_exclusive (hand : option (list Point3D))
    (s : Engine.State) (u v : Analyze.PoseEntry) :
  In ("U"%string, u) (Analyze.poses (fst (detectFingerStates hand s))) ->
  In ("V"%string, v) (Analyze.poses (fst (detectFingerStates hand s))) ->
  Analyze.pmatch u && Analyze.pmatch v = false.
Proof.
  set (st := fst (detectFingerStates hand s)).
  assert (Hex := hook_together_spread hand s). fold st in Hex.
  intros Hu Hv.
  assert (Eu : Analyze.pmatch u
               = Analyze.only st ["Index Extended"; "Middle Extended"]%string
                 && Analyze.is st "Index/Middle Together"
                 && negb (Analyze.is st "Index/Middle Crossed")).
  { unfold Analyze.poses in Hu.
    repeat (destruct Hu as [E|Hu];
            [first [discriminate E | injection E as <-; reflexivity]|]).
    destruct Hu. }
  assert (Ev : Analyze.pmatch v
               = Analyze.only st ["Index Extended"; "Middle Extended"]%string
                 && Analyze.is st "Index/Middle Spread").
  { unfold Analyze.poses in Hv.
    repeat (destruct Hv as [E|Hv];
            [first [discriminate E | injection E as <-; reflexivity]|]).
    destruct Hv. }
  rewrite Eu, Ev.
  destruct (Analyze.is st "Index/Middle Together") eqn:HT;
    [|rewrite !andb_false_r; reflexivity].
  destruct (Analyze.is st "Index/Middle Spread") eqn:HS;
    [|rewrite !andb_false_r; reflexivity].
  exfalso. apply Hex. unfold Analyze.is in HT, HS.
  apply existsb_exists in HT, HS.
  destruct HT as [x [Hx Ex]], HS as [y [Hy Ey]].
  apply String.eqb_eq in Ex, Ey. subst x y. split; assumption.
Qed.

Lemma X22_hook_states_U_V_exclusive_witness :
  match lookup "U"%string (Analyze.poses (fst (detectFingerStates None Engine.init))),
        lookup "V"%string (Analyze.poses (fst (detectFingerStates None Engine.init))) with
  | Some u, Some v => Analyze.pmatch u && Analyze.pmatch v = false
  | _, _ => False
  end.
Proof.
  destruct (lookup "U"%string _) as [u|] eqn:Eu; [|vm_compute in Eu; discriminate].
  destruct (lookup "V"%string _) as [v|] eqn:Ev; [|vm_compute in Ev; discriminate].
  apply (X22_hook_states_U_V_exclusive None Engine.init); apply lookup_in; assumption.
Defined.
